(** * build/generate_icons.py: icon conversion script

    A shallow embedding of the script [build/generate_icons.py] and the
    properties of its specification.

    The script is straight-line file I/O around two third-party libraries
    (cairosvg and Pillow).  The embedding has three layers:

    - [Pathlib]: the fragment of [pathlib.Path] the script uses;
    - a world (file system, clock, trace of external calls) and an
      exception-and-state monad over it; one primitive per external call
      the script makes, whose pure codecs (SVG rendering, PNG decoding,
      resampling, ICO encoding) are the fields of the class [ImagingLib];
    - the script itself: [svg_to_png], [create_ico], [main] and the module
      body [script], written in the order of the source.

    What the model leaves out: a path names one file (no links, no
    case folding), paths print the POSIX way, [Path.exists] and [print]
    do not raise, and a call that raises has not touched the file system.
    What the ICO writer does with the frames it is given is Pillow's
    business: the file it writes is [ICO_encode] of the arguments of
    [save]. *)

From stdpp Require Import base strings list gmap pretty.
From Stdlib Require Import ZArith.

Local Open Scope Z_scope.

(** ** pathlib *)

Module Pathlib.

(** A pure path: the anchor (drive and root, [""] for a relative path)
    and the components below it, as [PurePath] stores them. *)
Record Path := mkPath { anchor : string; parts : list string }.

(** [p / name], for a [name] that is a single relative component. *)
Definition joinpath (p : Path) (name : string) : Path :=
  mkPath (anchor p) (parts p ++ [name]).

(** [p.parent]: drops the last component; the anchor and the empty
    relative path are their own parents. *)
Definition parent (p : Path) : Path :=
  mkPath (anchor p) (removelast (parts p)).

(** [p.name] *)
Definition name (p : Path) : string := default "" (last (parts p)).

(** [str(p)] *)
Definition str (p : Path) : string :=
  match anchor p, parts p with
  | "", [] => "."
  | a, ps => a +:+ String.concat "/" ps
  end.

End Pathlib.
Export Pathlib.

Infix "/:" := joinpath (at level 40, left associativity).

Global Instance Path_eq_dec : EqDecision Path.
Proof. solve_decision. Defined.

Global Instance Path_countable : Countable Path.
Proof.
  refine (inj_countable' (λ p, (anchor p, parts p)) (λ q, mkPath q.1 q.2) _).
  by intros [].
Defined.

(** The newline written [\n] in the source. *)
Definition nl : string := String (Ascii.ascii_of_nat 10) EmptyString.

(** ** Exceptions and the trace of external calls *)

Inductive exn :=
| FileNotFoundError (p : Path)
| FileExistsError (p : Path)
| NotADirectoryError (p : Path)
| IsADirectoryError (p : Path)
| SameFileError (p : Path)
| ParseError (p : Path)
| UnidentifiedImageError (p : Path)
| IndexError.

(** The calls the script makes outside itself, with the arguments that
    name files and sizes (image data is not part of the trace). *)
Inductive call :=
| Print (line : string)
| PathExists (p : Path)
| PathMkdir (p : Path) (exist_ok : bool)
| Svg2png (url write_to : Path) (output_width output_height : Z)
| ImageOpen (p : Path)
| ImageSaveICO (p : Path) (sizes : list (Z * Z))
| Copy2 (src dst : Path).

(** A call and how it ended: [None] when it returned, [Some e] when it
    raised [e]. *)
Record event := Ev { ev_call : call; ev_error : option exn }.

(** [PIL.Image.Resampling] *)
Inductive Resampling := NEAREST | LANCZOS | BILINEAR | BICUBIC | BOX | HAMMING.

(** ** The imaging libraries

    cairosvg and Pillow are not part of the repository; what the script
    needs of them is taken as an interface. [None] stands for the library
    raising. *)
Class ImagingLib := {
  (** file contents *)
  data : Type;
  (** an in-memory [PIL.Image.Image] *)
  image : Type;
  (** cairosvg: parse an SVG document and render it as a PNG of
      [output_width] x [output_height] *)
  svg2png_render : data → Z → Z → option data;
  (** Pillow: identify and decode a raster file *)
  Image_decode : data → option image;
  (** [im.size] *)
  Image_size : image → Z * Z;
  (** [im.resize(size, resample)] *)
  Image_resize : image → Z * Z → Resampling → image;
  (** the ICO writer behind [im.save(format='ICO', sizes=, append_images=)] *)
  ICO_encode : image → list (Z * Z) → list image → data
}.

(** What the documentation of the two libraries promises about sizes. *)
Class ImagingLaws (lib : ImagingLib) : Prop := {
  svg2png_render_size : ∀ src w h png,
    svg2png_render src w h = Some png →
    ∃ im, Image_decode png = Some im ∧ Image_size im = (w, h);
  Image_resize_size : ∀ im size f, Image_size (Image_resize im size f) = size
}.

(** ** World, monad and primitives *)

Section Model.
Context `{lib : ImagingLib}.

(** A file carries its contents and its modification time. *)
Inductive node := File (content : data) (mtime : nat) | Dir.

Record world := World {
  fs : gmap Path node;
  clock : nat;
  trace : list event
}.

(** The result of running a piece of the script: it returns a value, or
    an exception escapes it; either way the world it leaves is kept. *)
Inductive outcome (A : Type) :=
| Ret (a : A) (w : world)
| Raise (e : exn) (w : world).
Global Arguments Ret {A} a w.
Global Arguments Raise {A} e w.

Definition world_of {A} (r : outcome A) : world :=
  match r with Ret _ w => w | Raise _ w => w end.

Definition returned {A} (r : outcome A) : bool :=
  match r with Ret _ _ => true | Raise _ _ => false end.


Definition M (A : Type) : Type := world → outcome A.

Definition ret {A} (a : A) : M A := λ w, Ret a w.

Definition bind {A B} (m : M A) (k : A → M B) : M B := λ w,
  match m w with
  | Ret a w' => k a w'
  | Raise e w' => Raise e w'
  end.

Definition raise {A} (e : exn) : M A := λ w, Raise e w.

(** An external call [c] with semantics [sem] on the file system at the
    current time: it is logged with its result, and time passes. A call
    that raises leaves the file system as it was. *)
Definition prim {A} (c : call)
    (sem : gmap Path node → nat → exn + A * gmap Path node) : M A := λ w,
  match sem (fs w) (clock w) with
  | inr (a, fs') => Ret a (World fs' (S (clock w)) (trace w ++ [Ev c None]))
  | inl e => Raise e (World (fs w) (S (clock w)) (trace w ++ [Ev c (Some e)]))
  end.

(** The world a run starts in: a file system, the time, nothing logged. *)
Definition boot (fs : gmap Path node) (now : nat) : world := World fs now [].

(** [wp m Q E w]: run from [w], [m] ends in a world satisfying [Q] with
    its result when it returns, and [E] with the exception otherwise. *)
Definition wp {A} (m : M A) (Q : A → world → Prop) (E : exn → world → Prop)
    (w : world) : Prop :=
  match m w with
  | Ret a w' => Q a w'
  | Raise e w' => E e w'
  end.

Global Instance M_ret : MRet M := @ret.
Global Instance M_bind : MBind M := λ A B k m, bind m k.

(** [for x in l: body(x)] *)
Fixpoint for_each {A} (l : list A) (body : A → M unit) : M unit :=
  match l with
  | [] => mret tt
  | x :: l' => body x ;; for_each l' body
  end.

End Model.

Section FileSystem.
Context `{lib : ImagingLib}.

Definition is_dir (p : Path) (fs : gmap Path node) : bool :=
  match fs !! p with Some Dir => true | _ => false end.

Definition exists_ (p : Path) (fs : gmap Path node) : bool :=
  match fs !! p with Some _ => true | None => false end.

(** [open(p, 'rb').read()] *)
Definition read_file (p : Path) (fs : gmap Path node) : exn + data :=
  match fs !! p with
  | Some (File d _) => inr d
  | Some Dir => inl (IsADirectoryError p)
  | None => inl (FileNotFoundError p)
  end.

(** [open(p, 'wb').write(d)] at time [now]: creates or truncates. *)
Definition write_file (p : Path) (d : data) (mtime : nat)
    (fs : gmap Path node) : exn + gmap Path node :=
  match fs !! p with
  | Some Dir => inl (IsADirectoryError p)
  | _ =>
    match fs !! parent p with
    | Some Dir => inr (<[p := File d mtime]> fs)
    | Some (File _ _) => inl (NotADirectoryError p)
    | None => inl (FileNotFoundError p)
    end
  end.

(** [os.mkdir(p)] *)
Definition os_mkdir (p : Path) (fs : gmap Path node) : exn + gmap Path node :=
  match fs !! p with
  | Some _ => inl (FileExistsError p)
  | None =>
    match fs !! parent p with
    | Some Dir => inr (<[p := Dir]> fs)
    | Some (File _ _) => inl (NotADirectoryError p)
    | None => inl (FileNotFoundError p)
    end
  end.

(** [Path.mkdir(parents=False, exist_ok=...)]: [FileNotFoundError] is
    re-raised; any other [OSError] is swallowed only when [exist_ok] is
    set and the path is a directory. *)
Definition mkdir_sem (p : Path) (exist_ok : bool) (fs : gmap Path node)
    : exn + gmap Path node :=
  match os_mkdir p fs with
  | inr fs' => inr fs'
  | inl (FileNotFoundError q) => inl (FileNotFoundError q)
  | inl e => if negb exist_ok || negb (is_dir p fs) then inl e else inr fs
  end.

(** [cairosvg.svg2png(url=, write_to=, output_width=, output_height=)]:
    the document is read and rendered before the output is written. *)
Definition svg2png_sem (url write_to : Path) (output_width output_height : Z)
    (fs : gmap Path node) (now : nat) : exn + unit * gmap Path node :=
  match read_file url fs with
  | inl e => inl e
  | inr src =>
    match svg2png_render src output_width output_height with
    | None => inl (ParseError url)
    | Some png =>
      match write_file write_to png now fs with
      | inl e => inl e
      | inr fs' => inr (tt, fs')
      end
    end
  end.

(** [Image.open(p)], with the pixel data loaded. *)
Definition open_sem (p : Path) (fs : gmap Path node) : exn + image * gmap Path node :=
  match read_file p fs with
  | inl e => inl e
  | inr d =>
    match Image_decode d with
    | None => inl (UnidentifiedImageError p)
    | Some im => inr (im, fs)
    end
  end.

(** [im.save(p, format='ICO', sizes=sizes, append_images=append_images)] *)
Definition save_ico_sem (im : image) (p : Path) (sizes : list (Z * Z))
    (append_images : list image) (fs : gmap Path node) (now : nat)
    : exn + unit * gmap Path node :=
  match write_file p (ICO_encode im sizes append_images) now fs with
  | inl e => inl e
  | inr fs' => inr (tt, fs')
  end.

(** [shutil.copy2(src, dst)]: into [dst] when it is a directory; the
    contents are copied and then the metadata, so the copy has the
    modification time of [src]. Returns the path written. *)
Definition copy2_sem (src dst : Path) (fs : gmap Path node)
    : exn + Path * gmap Path node :=
  let dst := if is_dir dst fs then dst /: name src else dst in
  match fs !! src with
  | Some (File d t) =>
    if decide (src = dst) then inl (SameFileError src)
    else match write_file dst d t fs with
         | inl e => inl e
         | inr fs' => inr (dst, fs')
         end
  | Some Dir => inl (IsADirectoryError src)
  | None => inl (FileNotFoundError src)
  end.

Definition print (line : string) : M unit :=
  prim (Print line) (λ fs _, inr (tt, fs)).

Definition Path_exists (p : Path) : M bool :=
  prim (PathExists p) (λ fs _, inr (exists_ p fs, fs)).

Definition Path_mkdir (p : Path) (exist_ok : bool) : M unit :=
  prim (PathMkdir p exist_ok) (λ fs _,
    match mkdir_sem p exist_ok fs with
    | inl e => inl e
    | inr fs' => inr (tt, fs')
    end).

Definition cairosvg_svg2png (url write_to : Path)
    (output_width output_height : Z) : M unit :=
  prim (Svg2png url write_to output_width output_height)
       (svg2png_sem url write_to output_width output_height).

Definition Image_open (p : Path) : M image :=
  prim (ImageOpen p) (λ fs _, open_sem p fs).

Definition Image_save_ico (im : image) (p : Path) (sizes : list (Z * Z))
    (append_images : list image) : M unit :=
  prim (ImageSaveICO p sizes) (save_ico_sem im p sizes append_images).

Definition shutil_copy2 (src dst : Path) : M Path :=
  prim (Copy2 src dst) (λ fs _, copy2_sem src dst fs).

End FileSystem.

(** ** The script *)

Section Script.
Context `{lib : ImagingLib}.

(** Lines 22-30. *)
Definition svg_to_png (svg_path png_path : Path) (size : Z) : M unit :=
  cairosvg_svg2png svg_path png_path size size ;;
  print ("✅ 已生成：" +:+ str png_path +:+ " (" +:+ pretty size +:+ "x"
         +:+ pretty size +:+ ")").

(** Lines 32-52. *)
Definition create_ico (png_path ico_path : Path) : M unit :=
  img ← Image_open png_path ;
  let sizes := [(256, 256); (128, 128); (64, 64); (48, 48); (32, 32); (16, 16)] in
  let icons :=
    fold_left (λ icons size, icons ++ [Image_resize img size LANCZOS]) sizes [] in
  match icons with
  | [] => raise IndexError
  | icons0 :: icons1 => Image_save_ico icons0 ico_path sizes icons1
  end ;;
  print ("✅ 已生成：" +:+ str ico_path +:+ " (包含 " +:+ pretty (length sizes)
         +:+ " 个尺寸)").

(** Lines 54-100. [file] is [Path(__file__)]. *)
Definition main (HAS_DEPS : bool) (file : Path) : M unit :=
  if negb HAS_DEPS then mret tt else
  let script_dir := parent file in
  let svg_file := script_dir /: "appicon.svg" in
  svg_exists ← Path_exists svg_file ;
  if negb svg_exists then
    print ("❌ 错误：找不到 " +:+ str svg_file)
  else
  print ("🎨 开始生成图标文件..." +:+ nl) ;;
  let png_512 := script_dir /: "appicon.png" in
  svg_to_png svg_file png_512 512 ;;
  let sizes := [256; 128; 64] in
  for_each sizes (λ size,
    let png_file := script_dir /: ("icon_" +:+ pretty size +:+ ".png") in
    svg_to_png svg_file png_file size) ;;
  let ico_dir := script_dir /: "windows" in
  Path_mkdir ico_dir true ;;
  let ico_file := ico_dir /: "icon.ico" in
  print (nl +:+ "🔧 生成 Windows ICO 文件...") ;;
  create_ico png_512 ico_file ;;
  let original_png := script_dir /: "appicon.png.backup" in
  do_backup ← (png_exists ← Path_exists png_512 ;
               if png_exists : bool then
                 backup_exists ← Path_exists original_png ;
                 mret (negb backup_exists)
               else mret false : M bool) ;
  (if do_backup : bool then
     shutil_copy2 png_512 original_png ;;
     print ("💾 已备份原图标：" +:+ str original_png)
   else mret tt : M unit) ;;
  print (nl +:+ "✅ 图标生成完成！") ;;
  print (nl +:+ "📁 生成的文件：") ;;
  print ("   - " +:+ str png_512) ;;
  print ("   - " +:+ str (script_dir /: "icon_256.png")) ;;
  print ("   - " +:+ str (script_dir /: "icon_128.png")) ;;
  print ("   - " +:+ str (script_dir /: "icon_64.png")) ;;
  print ("   - " +:+ str ico_file) ;;
  print (nl +:+ "🚀 现在可以重新编译应用查看新图标！").

(** Lines 12-20: the guarded import. [importable] tells whether both
    cairosvg and PIL can be imported; the result is [HAS_DEPS]. *)
Definition import_deps (importable : bool) : M bool :=
  if importable then mret true
  else
    print "⚠️  缺少依赖库，请先安装：" ;;
    print "   pip install cairosvg pillow" ;;
    print "" ;;
    mret false.

(** The module run as [__main__]: lines 12-20, then line 103. *)
Definition script (importable : bool) (file : Path) : M unit :=
  HAS_DEPS ← import_deps importable ;
  main HAS_DEPS file.

End Script.

(** ** The calls of a complete run

    The sequence of calls [main] makes when nothing raises, as a function
    of the script location and of whether the backup is already there. *)

Definition call_ok (c : call) : event := Ev c None.

Definition said_png (png_path : Path) (size : Z) : call :=
  Print ("✅ 已生成：" +:+ str png_path +:+ " (" +:+ pretty size +:+ "x"
         +:+ pretty size +:+ ")").

Definition calls_rasterize (file : Path) : list call :=
  let script_dir := parent file in
  let svg_file := script_dir /: "appicon.svg" in
  [PathExists svg_file;
   Print ("🎨 开始生成图标文件..." +:+ nl);
   Svg2png svg_file (script_dir /: "appicon.png") 512 512;
   said_png (script_dir /: "appicon.png") 512]
  ++ ([256; 128; 64] ≫= λ size,
      let png_file := script_dir /: ("icon_" +:+ pretty size +:+ ".png") in
      [Svg2png svg_file png_file size size; said_png png_file size]).

Definition calls_ico (file : Path) : list call :=
  let script_dir := parent file in
  let ico_file := script_dir /: "windows" /: "icon.ico" in
  let sizes := [(256, 256); (128, 128); (64, 64); (48, 48); (32, 32); (16, 16)] in
  [PathMkdir (script_dir /: "windows") true;
   Print (nl +:+ "🔧 生成 Windows ICO 文件...");
   ImageOpen (script_dir /: "appicon.png");
   ImageSaveICO ico_file sizes;
   Print ("✅ 已生成：" +:+ str ico_file +:+ " (包含 " +:+ pretty (length sizes)
          +:+ " 个尺寸)")].

Definition calls_backup (file : Path) (had_backup : bool) : list call :=
  let script_dir := parent file in
  let original_png := script_dir /: "appicon.png.backup" in
  [PathExists (script_dir /: "appicon.png"); PathExists original_png]
  ++ (if had_backup then []
      else [Copy2 (script_dir /: "appicon.png") original_png;
            Print ("💾 已备份原图标：" +:+ str original_png)]).

Definition calls_summary (file : Path) : list call :=
  let script_dir := parent file in
  [Print (nl +:+ "✅ 图标生成完成！");
   Print (nl +:+ "📁 生成的文件：");
   Print ("   - " +:+ str (script_dir /: "appicon.png"));
   Print ("   - " +:+ str (script_dir /: "icon_256.png"));
   Print ("   - " +:+ str (script_dir /: "icon_128.png"));
   Print ("   - " +:+ str (script_dir /: "icon_64.png"));
   Print ("   - " +:+ str (script_dir /: "windows" /: "icon.ico"));
   Print (nl +:+ "🚀 现在可以重新编译应用查看新图标！")].

Definition full_calls (file : Path) (had_backup : bool) : list call :=
  calls_rasterize file ++ calls_ico file ++ calls_backup file had_backup
  ++ calls_summary file.

(** The trace of a run that made the first [n] calls of [calls] and then
    [c], which raised [e]. *)
Definition stopped_at (calls : list call) (n : nat) (c : call) (e : exn)
    : list event :=
  (call_ok <$> take n calls) ++ [Ev c (Some e)].

(** The calls of a run that returns, by what it finds: whether the
    libraries can be imported, whether the SVG is there, whether the backup
    is there. *)
Definition expected_calls (importable : bool) (file : Path)
    (has_svg has_backup : bool) : list call :=
  if importable then
    if has_svg then full_calls file has_backup
    else [PathExists (parent file /: "appicon.svg");
          Print ("❌ 错误：找不到 " +:+ str (parent file /: "appicon.svg"))]
  else [Print "⚠️  缺少依赖库，请先安装：";
        Print "   pip install cairosvg pillow";
        Print ""].

Section RunFacts.
Context `{lib : ImagingLib}.

(** What a run of [main] that went through all its steps leaves behind,
    from the file system [fs0] it started in. *)
Definition completed (file : Path) (fs0 : gmap Path node) (w' : world) : Prop :=
  let dir := parent file in
  let png := dir /: "appicon.png" in
  let backup := dir /: "appicon.png.backup" in
  let windows := dir /: "windows" in
  let ico := windows /: "icon.ico" in
  ∃ src t0 png512 png256 png128 png64 img t512,
    fs0 !! (dir /: "appicon.svg") = Some (File src t0) ∧
    svg2png_render src 512 512 = Some png512 ∧
    svg2png_render src 256 256 = Some png256 ∧
    svg2png_render src 128 128 = Some png128 ∧
    svg2png_render src 64 64 = Some png64 ∧
    Image_decode png512 = Some img ∧
    fs w' !! png = Some (File png512 t512) ∧
    (∃ t, fs w' !! (dir /: "icon_256.png") = Some (File png256 t)) ∧
    (∃ t, fs w' !! (dir /: "icon_128.png") = Some (File png128 t)) ∧
    (∃ t, fs w' !! (dir /: "icon_64.png") = Some (File png64 t)) ∧
    fs w' !! windows = Some Dir ∧
    (∃ t, fs w' !! ico =
       Some (File (ICO_encode (Image_resize img (256, 256) LANCZOS)
                     ((λ s, (s, s)) <$> [256; 128; 64; 48; 32; 16])
                     ((λ s, Image_resize img (s, s) LANCZOS)
                        <$> [128; 64; 48; 32; 16])) t)) ∧
    fs w' !! backup =
      (if exists_ backup fs0 then fs0 !! backup
       else Some (File png512 t512)) ∧
    (∀ q, q ∉ [png; dir /: "icon_256.png"; dir /: "icon_128.png";
               dir /: "icon_64.png"; windows; ico; backup] →
          fs w' !! q = fs0 !! q).

(** Why the call [c] of [main] can raise, in terms of the file system
    [fs0] the run started in. *)
Definition raise_cause (fs0 : gmap Path node) (c : call) : Prop :=
  match c with
  | Svg2png url write_to w h =>
      (∀ src t, fs0 !! url = Some (File src t) →
                svg2png_render src w h = None
                ∨ fs0 !! write_to = Some Dir
                ∨ fs0 !! parent write_to ≠ Some Dir)
  | PathMkdir p _ => ∃ d t, fs0 !! p = Some (File d t)
  | ImageOpen p =>
      ∀ src t png, fs0 !! (parent p /: "appicon.svg") = Some (File src t) →
                   svg2png_render src 512 512 = Some png →
                   Image_decode png = None
  | ImageSaveICO p _ => fs0 !! p = Some Dir
  | _ => False
  end.

End RunFacts.

(** ** A symbolic instance of the libraries

    File contents and images are the terms that describe how they were
    made. It is the instance at which the theorems below are exercised. *)

Module Symbolic.

Inductive simage :=
| Rendered (doc : string) (w h : Z)
| Resized (src : simage) (size : Z * Z) (resample : Resampling).

Inductive sdata :=
| SvgDoc (doc : string)
| Malformed
| Png (im : simage)
| Ico (im : simage) (sizes : list (Z * Z)) (append_images : list simage).

Definition render (src : sdata) (w h : Z) : option sdata :=
  match src with
  | SvgDoc doc => Some (Png (Rendered doc w h))
  | _ => None
  end.

Definition decode (d : sdata) : option simage :=
  match d with
  | Png im => Some im
  | _ => None
  end.

Definition size (im : simage) : Z * Z :=
  match im with
  | Rendered _ w h => (w, h)
  | Resized _ size _ => size
  end.

Global Instance lib : ImagingLib := {|
  data := sdata;
  image := simage;
  svg2png_render := render;
  Image_decode := decode;
  Image_size := size;
  Image_resize := Resized;
  ICO_encode := Ico
|}.

(** [__file__] is [build/generate_icons.py]. *)
Definition file : Path := mkPath "" ["build"; "generate_icons.py"].
Definition build : Path := mkPath "" ["build"].

(** A checkout before the first run: the directory and the SVG. *)
Definition fresh : gmap Path node :=
  <[build /: "appicon.svg" := File (SvgDoc "appicon") 3%nat]>
    (<[build := Dir]> (<[mkPath "" [] := Dir]> ∅)).

(** Nothing but the directory of the script. *)
Definition bare : gmap Path node := <[build := Dir]> ∅.

(** Another checkout: a different drawing, made at another time. *)
Definition redrawn : gmap Path node :=
  <[build /: "appicon.svg" := File (SvgDoc "redrawn") 40%nat]> fresh.

(** The drawing is there but is not SVG. *)
Definition corrupt : gmap Path node :=
  <[build /: "appicon.svg" := File Malformed 3%nat]> fresh.

(** A checkout whose SVG has been removed after an earlier run was
    interrupted: the 512 pixel PNG is there, the backup is not. *)
Definition no_source : gmap Path node :=
  <[build /: "appicon.png" := File (Png (Rendered "appicon" 512 512)) 1%nat]>
    (<[build := Dir]> (<[mkPath "" [] := Dir]> ∅)).

(** A checkout with something else where the 512 pixel PNG goes. *)
Definition stale : gmap Path node :=
  <[build /: "appicon.png" := File Malformed 1%nat]> fresh.

End Symbolic.

(** ** Trace vocabulary *)

Definition is_print (ev : event) : Prop :=
  match ev_call ev with Print _ => True | _ => False end.

Definition is_copy2 (ev : event) : Prop :=
  match ev_call ev with Copy2 _ _ => True | _ => False end.

(** The event returned normally. *)
Definition succeeded (ev : event) : Prop := ev_error ev = None.

(** The files a run has produced: the destinations of the calls that
    write a file and returned. *)
Definition output_of (ev : event) : list Path :=
  match ev with
  | Ev (Svg2png _ write_to _ _) None => [write_to]
  | Ev (ImageSaveICO p _) None => [p]
  | Ev (Copy2 _ dst) None => [dst]
  | _ => []
  end.

Definition outputs (evs : list event) : list Path := evs ≫= output_of.

(** The event raised. *)
Definition failed (ev : event) : Prop := ev_error ev ≠ None.

(** None of the calls is a copy. *)
Definition no_copy2 (l : list call) : Prop :=
  Forall (λ ev, ¬ is_copy2 ev) (call_ok <$> l).

(** The paths [main] writes to, all next to the script. *)
Definition output_paths (file : Path) : list Path :=
  let dir := parent file in
  [dir /: "appicon.png"; dir /: "icon_256.png"; dir /: "icon_128.png";
   dir /: "icon_64.png"; dir /: "windows"; dir /: "windows" /: "icon.ico";
   dir /: "appicon.png.backup"].

(** The files every complete run writes anew. *)
Definition regenerated (file : Path) : list Path :=
  let dir := parent file in
  [dir /: "appicon.png"; dir /: "icon_256.png"; dir /: "icon_128.png";
   dir /: "icon_64.png"; dir /: "windows" /: "icon.ico"].

Section RunEffects.
Context `{lib : ImagingLib}.

(** What a path holds, the modification time left aside: [None] for a
    directory. *)
Definition node_data (n : node) : option data :=
  match n with File d _ => Some d | Dir => None end.

(** The path holds a file written after the time [now]. *)
Definition fresh_file (fs : gmap Path node) (now : nat) (p : Path) : Prop :=
  ∃ d t, fs !! p = Some (File d t) ∧ (now < t)%nat.

(** The effects of a run from [fs0] at time [now] that ended as [r]: the
    paths it has not touched, the files it has written, and, when it
    returned, what it must have found. *)
Definition run_effects (file : Path) (fs0 : gmap Path node) (now : nat)
    (r : outcome unit) : Prop :=
  (∀ q, q ∉ output_paths file → fs (world_of r) !! q = fs0 !! q) ∧
  (∀ p, p ∈ outputs (trace (world_of r)) → fresh_file (fs (world_of r)) now p) ∧
  (returned r = true →
     fs0 !! parent file = Some Dir ∧
     Forall (λ p, fs0 !! p ≠ Some Dir) (regenerated file) ∧
     (∀ d t, fs0 !! (parent file /: "windows") ≠ Some (File d t)) ∧
     Forall (fresh_file (fs (world_of r)) now) (regenerated file)).

End RunEffects.

(** * Properties *)

(** ** Paths *)

Lemma parent_joinpath p n : parent (p /: n) = p.
Proof.
  destruct p as [a ps]. unfold parent, joinpath. cbn [anchor parts].
  by rewrite removelast_last.
Qed.

Lemma joinpath_inj p q a b : p /: a = q /: b → p = q ∧ a = b.
Proof.
  destruct p as [x ps], q as [y qs]. unfold joinpath. cbn [anchor parts].
  intros [= -> [-> ->]%app_inj_tail]. done.
Qed.

Lemma joinpath_depth p a : length (parts (p /: a)) = S (length (parts p)).
Proof. unfold joinpath. cbn [parts]. rewrite length_app. simpl. lia. Qed.

Lemma joinpath_ne p a b : a ≠ b → p /: a ≠ p /: b.
Proof. intros Hab [_ ?]%joinpath_inj. done. Qed.

Lemma joinpath_ne_self p a : p /: a ≠ p.
Proof.
  intros H%(f_equal (λ q, length (parts q))). rewrite joinpath_depth in H. lia.
Qed.

Lemma joinpath2_ne p a b c : p /: a /: b ≠ p /: c.
Proof. intros [H _]%joinpath_inj. by apply joinpath_ne_self in H. Qed.

Lemma joinpath2_ne_self p a b : p /: a /: b ≠ p.
Proof.
  intros H%(f_equal (λ q, length (parts q))). rewrite !joinpath_depth in H. lia.
Qed.

(** Decides that two paths built from the same directory differ. *)
Ltac path_ne :=
  first
    [ apply joinpath_ne; discriminate
    | apply joinpath_ne_self
    | apply not_eq_sym, joinpath_ne_self
    | apply joinpath2_ne
    | apply not_eq_sym, joinpath2_ne
    | apply joinpath2_ne_self
    | apply not_eq_sym, joinpath2_ne_self ].

Lemma icon_name_256 : "icon_" +:+ pretty 256 +:+ ".png" = "icon_256.png".
Proof. reflexivity. Qed.
Lemma icon_name_128 : "icon_" +:+ pretty 128 +:+ ".png" = "icon_128.png".
Proof. reflexivity. Qed.
Lemma icon_name_64 : "icon_" +:+ pretty 64 +:+ ".png" = "icon_64.png".
Proof. reflexivity. Qed.

(** ** The monad *)

Section Exec.
Context `{lib : ImagingLib}.

Lemma wp_outcome {A} (m : M A) (P : outcome A → Prop) w :
  wp m (λ a w', P (Ret a w')) (λ e w', P (Raise e w')) w → P (m w).
Proof. unfold wp. by destruct (m w). Qed.

Lemma wp_ret {A} (a : A) Q E w : Q a w → wp (mret a) Q E w.
Proof. done. Qed.

Lemma wp_bind {A B} (m : M A) (k : A → M B) Q E w :
  wp m (λ a w', wp (k a) Q E w') E w → wp (m ≫= k) Q E w.
Proof.
  unfold wp, mbind, M_bind, bind. by destruct (m w).
Qed.

Lemma wp_prim {A} c (sem : gmap Path node → nat → exn + A * gmap Path node) Q E w :
  (∀ a fs', sem (fs w) (clock w) = inr (a, fs') →
     Q a (World fs' (S (clock w)) (trace w ++ [Ev c None]))) →
  (∀ e, sem (fs w) (clock w) = inl e →
     E e (World (fs w) (S (clock w)) (trace w ++ [Ev c (Some e)]))) →
  wp (prim c sem) Q E w.
Proof.
  intros HQ HE. unfold wp, prim.
  destruct (sem (fs w) (clock w)) as [e|[a fs']]; auto.
Qed.

Lemma wp_print line Q E w :
  Q tt (World (fs w) (S (clock w)) (trace w ++ [Ev (Print line) None])) →
  wp (print line) Q E w.
Proof. intros HQ. apply wp_prim; intros; simplify_eq. done. Qed.

Lemma wp_exists p Q E w :
  Q (exists_ p (fs w))
    (World (fs w) (S (clock w)) (trace w ++ [Ev (PathExists p) None])) →
  wp (Path_exists p) Q E w.
Proof. intros HQ. apply wp_prim; intros; simplify_eq. done. Qed.

End Exec.

(** ** The file system primitives *)

Section FileSystemFacts.
Context `{lib : ImagingLib}.
Implicit Types (fs : gmap Path node) (p q : Path).

Lemma write_file_inr p d t fs fs' :
  write_file p d t fs = inr fs' →
  fs' = <[p := File d t]> fs ∧ fs !! parent p = Some Dir ∧ fs !! p ≠ Some Dir.
Proof.
  unfold write_file. intros H.
  destruct (fs !! p) as [[]|] eqn:Hp; first
    [ discriminate
    | destruct (fs !! parent p) as [[]|]; simplify_eq; done ].
Qed.

Lemma write_file_ok p d t fs :
  fs !! parent p = Some Dir → fs !! p ≠ Some Dir →
  write_file p d t fs = inr (<[p := File d t]> fs).
Proof.
  unfold write_file. intros -> Hp. by destruct (fs !! p) as [[]|].
Qed.

Lemma write_file_inl p d t fs e :
  write_file p d t fs = inl e → fs !! parent p ≠ Some Dir ∨ fs !! p = Some Dir.
Proof.
  unfold write_file. intros H.
  destruct (fs !! p) as [[]|]; auto;
    destruct (fs !! parent p) as [[]|]; simplify_eq; auto.
Qed.

Lemma svg2png_sem_inr url dst w h fs now a fs' :
  svg2png_sem url dst w h fs now = inr (a, fs') →
  ∃ src t png,
    fs !! url = Some (File src t) ∧ svg2png_render src w h = Some png ∧
    fs' = <[dst := File png now]> fs ∧
    fs !! parent dst = Some Dir ∧ fs !! dst ≠ Some Dir.
Proof.
  unfold svg2png_sem, read_file. intros H.
  destruct (fs !! url) as [[src t|]|] eqn:Hurl; try discriminate.
  destruct (svg2png_render src w h) as [png|] eqn:Hr; try discriminate.
  destruct (write_file dst png now fs) as [|fs1] eqn:Hw; simplify_eq.
  apply write_file_inr in Hw as (-> & ? & ?). eauto 10.
Qed.

Lemma svg2png_sem_ok url dst w h fs now src t png :
  fs !! url = Some (File src t) → svg2png_render src w h = Some png →
  fs !! parent dst = Some Dir → fs !! dst ≠ Some Dir →
  svg2png_sem url dst w h fs now = inr (tt, <[dst := File png now]> fs).
Proof.
  intros Hurl Hr Hd Hp. unfold svg2png_sem, read_file.
  by rewrite Hurl, Hr, write_file_ok.
Qed.

Lemma open_sem_inr p fs im fs' :
  open_sem p fs = inr (im, fs') →
  fs' = fs ∧ ∃ d t, fs !! p = Some (File d t) ∧ Image_decode d = Some im.
Proof.
  unfold open_sem, read_file. intros H.
  destruct (fs !! p) as [[d t|]|] eqn:Hp; try discriminate.
  destruct (Image_decode d) eqn:Hd; simplify_eq. eauto.
Qed.

Lemma save_ico_sem_inr im p sizes more fs now a fs' :
  save_ico_sem im p sizes more fs now = inr (a, fs') →
  fs' = <[p := File (ICO_encode im sizes more) now]> fs ∧
  fs !! parent p = Some Dir ∧ fs !! p ≠ Some Dir.
Proof.
  unfold save_ico_sem. intros H.
  destruct (write_file _ _ _ _) as [|fs1] eqn:Hw; simplify_eq.
  by apply write_file_inr in Hw.
Qed.

Lemma mkdir_sem_inr p fs fs' :
  mkdir_sem p true fs = inr fs' →
  (fs !! p = None ∧ fs !! parent p = Some Dir ∧ fs' = <[p := Dir]> fs) ∨
  (fs !! p = Some Dir ∧ fs' = fs).
Proof.
  unfold mkdir_sem, os_mkdir, is_dir. intros H.
  destruct (fs !! p) as [[]|] eqn:Hp; cbn in H; simplify_eq; auto.
  destruct (fs !! parent p) as [[]|]; simplify_eq; auto.
Qed.

Lemma mkdir_sem_inl p fs e :
  mkdir_sem p true fs = inl e →
  (∃ d t, fs !! p = Some (File d t)) ∨ (fs !! p = None ∧ fs !! parent p ≠ Some Dir).
Proof.
  unfold mkdir_sem, os_mkdir, is_dir. intros H.
  destruct (fs !! p) as [[]|] eqn:Hp; cbn in H; simplify_eq; eauto.
  destruct (fs !! parent p) as [[]|]; simplify_eq; auto.
Qed.

Lemma copy2_sem_inr src dst fs q fs' :
  fs !! dst = None →
  copy2_sem src dst fs = inr (q, fs') →
  q = dst ∧ ∃ d t, fs !! src = Some (File d t) ∧ fs' = <[dst := File d t]> fs.
Proof.
  unfold copy2_sem, is_dir. intros Hdst H. rewrite Hdst in H.
  destruct (fs !! src) as [[d t|]|] eqn:Hsrc; try discriminate.
  case_decide; try discriminate.
  destruct (write_file dst d t fs) as [|fs1] eqn:Hw; simplify_eq.
  apply write_file_inr in Hw as (-> & _). eauto.
Qed.

Lemma exists_true p fs : exists_ p fs = true ↔ is_Some (fs !! p).
Proof.
  unfold exists_. destruct (fs !! p); split; done.
Qed.

Lemma exists_false p fs : exists_ p fs = false ↔ fs !! p = None.
Proof. unfold exists_. by destruct (fs !! p). Qed.

End FileSystemFacts.

(** ** The two recognised failures *)

Section EarlyReturns.
Context `{lib : ImagingLib}.


(** C4. With the libraries present and no [appicon.svg] next to the
    script, [main] prints an error that names the path and returns: the
    existence test and the print are the only calls, no file is written
    and nothing is raised. *)
Theorem missing_source_stops (file : Path) fs0 now :
  let svg_file := parent file /: "appicon.svg" in
  fs0 !! svg_file = None →
  main true file (boot fs0 now) =
  Ret tt (World fs0 (2 + now)
            [Ev (PathExists svg_file) None;
             Ev (Print ("❌ 错误：找不到 " +:+ str svg_file)) None]).
Proof.
  intros svg_file Habsent.
  unfold main, mbind, M_bind, bind, Path_exists, prim, boot.
  cbn [negb fs clock trace]. fold svg_file.
  apply exists_false in Habsent. rewrite Habsent. reflexivity.
Qed.

End EarlyReturns.

(** ** Running [main] *)

Section MainRun.
Context `{lib : ImagingLib}.
Implicit Types (fs : gmap Path node) (p q : Path).

Lemma exists_insert_eq p v fs : exists_ p (<[p := v]> fs) = true.
Proof. unfold exists_. by rewrite lookup_insert_eq. Qed.

Lemma exists_insert_ne p q v fs :
  q ≠ p → exists_ p (<[q := v]> fs) = exists_ p fs.
Proof. intros. unfold exists_. by rewrite lookup_insert_ne. Qed.

Lemma wp_mkdir p Q E w :
  (∀ fs', mkdir_sem p true (fs w) = inr fs' →
     Q tt (World fs' (S (clock w)) (trace w ++ [Ev (PathMkdir p true) None]))) →
  (∀ e, mkdir_sem p true (fs w) = inl e →
     E e (World (fs w) (S (clock w))
            (trace w ++ [Ev (PathMkdir p true) (Some e)]))) →
  wp (Path_mkdir p true) Q E w.
Proof.
  intros HQ HE. apply wp_prim; intros ??; destruct (mkdir_sem _ _ _) eqn:?;
    intros; simplify_eq; auto.
Qed.

(** One step of symbolic execution: the next call either returns, and its
    effect on the file system is recorded, or raises. *)
Ltac exec_step :=
  lazymatch goal with
  | |- wp (mbind _ _) _ _ _ => apply wp_bind
  | |- wp (print _) _ _ _ => apply wp_print
  | |- wp (Path_exists _) _ _ _ => apply wp_exists
  | |- wp (mret _) _ _ _ => apply wp_ret
  | |- wp (svg_to_png _ _ _) _ _ _ => unfold svg_to_png
  | |- wp (create_ico _ _) _ _ _ => unfold create_ico
  | |- wp (for_each _ _) _ _ _ => cbn [for_each]
  | |- wp (cairosvg_svg2png _ _ _ _) _ _ _ =>
      apply wp_prim; cbn [fs clock trace boot app];
      [intros [] ? (?&?&?&?&?&->&?&?)%svg2png_sem_inr | intros ? ?]
  | |- wp (Path_mkdir _ true) _ _ _ =>
      apply wp_mkdir; cbn [fs clock trace boot app];
      [intros ? [(?&?&->)|(?&->)]%mkdir_sem_inr | intros ? ?]
  | |- wp (Image_open _) _ _ _ =>
      apply wp_prim; cbn [fs clock trace boot app];
      [intros ? ? (->&?&?&?&?)%open_sem_inr | intros ? ?]
  | |- wp (Image_save_ico _ _ _ _) _ _ _ =>
      apply wp_prim; cbn [fs clock trace boot app];
      [intros [] ? (->&?&?)%save_ico_sem_inr | intros ? ?]
  | |- wp (shutil_copy2 _ _) _ _ _ =>
      apply wp_prim; cbn [fs clock trace boot app];
      [intros ? ? (->&?&?&?&->)%copy2_sem_inr | intros ? ?]
  end; cbv beta; cbn [fs clock trace boot app fold_left].

(** Brings the recorded facts back to lookups in the initial file system. *)
Ltac tidy :=
  rewrite ?icon_name_256, ?icon_name_128, ?icon_name_64, ?parent_joinpath in *;
  repeat match goal with
  | H : context [<[_ := _]> _ !! _] |- _ =>
      first [ rewrite lookup_insert_eq in H
            | rewrite lookup_insert_ne in H by path_ne ]
  end;
  simplify_eq.

Ltac lookups :=
  repeat first [ rewrite lookup_insert_eq
               | rewrite lookup_insert_ne
                   by first [ path_ne | done | apply not_eq_sym; done ] ].

(** A raising run: it stopped at the call whose index is the number of
    calls that returned. *)
Ltac stopped :=
  lazymatch goal with
  | |- ∃ n c, _ ∧ ?l = _ ∧ _ =>
      let k := eval lazy in (pred (length l)) in
      exists k; eexists; split_and!;
      [ reflexivity | reflexivity | tidy; lookups; reflexivity
      | cbn [raise_cause] ]
  end.

Lemma svg2png_sem_inl url dst w h fs now e src t :
  svg2png_sem url dst w h fs now = inl e →
  fs !! url = Some (File src t) →
  svg2png_render src w h = None
  ∨ fs !! dst = Some Dir ∨ fs !! parent dst ≠ Some Dir.
Proof.
  unfold svg2png_sem, read_file. intros H Hurl. rewrite Hurl in H.
  destruct (svg2png_render src w h); auto.
  destruct (write_file _ _ _ _) eqn:Hw; simplify_eq.
  apply write_file_inl in Hw. tauto.
Qed.

Lemma open_sem_inl p fs e d t :
  open_sem p fs = inl e → fs !! p = Some (File d t) → Image_decode d = None.
Proof.
  unfold open_sem, read_file. intros H Hp. rewrite Hp in H.
  by destruct (Image_decode d).
Qed.

Lemma save_ico_sem_inl im p sizes more fs now e :
  save_ico_sem im p sizes more fs now = inl e →
  fs !! parent p ≠ Some Dir ∨ fs !! p = Some Dir.
Proof.
  unfold save_ico_sem. destruct (write_file _ _ _ _) eqn:Hw; intros; simplify_eq.
  by apply write_file_inl in Hw.
Qed.

Lemma copy2_sem_inl src dst fs e d t :
  copy2_sem src dst fs = inl e →
  fs !! dst = None → fs !! src = Some (File d t) → src ≠ dst →
  fs !! parent dst = Some Dir → False.
Proof.
  unfold copy2_sem, is_dir. intros H Hdst Hsrc Hne Hdir.
  rewrite Hdst, Hsrc in H. case_decide; [done|].
  rewrite write_file_ok in H; [done..|]. by rewrite Hdst.
Qed.

(** Why the call that raised did, from the equation of its failure. *)
Ltac cause :=
  lazymatch goal with
  | Hf : svg2png_sem _ _ _ _ _ _ = inl _ |- _ =>
      intros src t Hsrc;
      eapply svg2png_sem_inl in Hf; [| lookups; exact Hsrc];
      tidy; tauto
  | Hf : mkdir_sem _ _ _ = inl _ |- _ =>
      apply mkdir_sem_inl in Hf as [(d&t&?)|[? ?]]; tidy; by eauto
  | Hf : open_sem _ _ = inl _ |- _ =>
      intros src t png Hsrc Hr;
      eapply open_sem_inl in Hf; [| lookups; reflexivity];
      tidy; done
  | Hf : save_ico_sem _ _ _ _ _ _ = inl _ |- _ =>
      apply save_ico_sem_inl in Hf as [Hf|Hf]; tidy; done
  | Hf : copy2_sem _ _ _ = inl _ |- _ =>
      eapply copy2_sem_inl in Hf;
      [ done | lookups; by apply exists_false | lookups; reflexivity
      | path_ne | tidy; lookups; done ]
  end.

Lemma main_run (file : Path) fs0 now :
  let calls :=
    full_calls file (exists_ (parent file /: "appicon.png.backup") fs0) in
  is_Some (fs0 !! (parent file /: "appicon.svg")) →
  match main true file (boot fs0 now) with
  | Ret _ w' => trace w' = call_ok <$> calls ∧ completed file fs0 w'
  | Raise e w' =>
      ∃ n c, calls !! n = Some c ∧ trace w' = stopped_at calls n c e ∧
             fs w' !! (parent file /: "appicon.png.backup")
               = fs0 !! (parent file /: "appicon.png.backup") ∧
             raise_cause fs0 c
  end.
Proof.
  intros calls Hsvg. subst calls. unfold completed. cbv zeta.
  apply (wp_outcome _ (λ r, match r with Ret _ w' => _ | Raise e w' => _ end)).
  unfold main. cbn [negb]. cbv zeta.
  do 2 exec_step.
  apply exists_true in Hsvg. rewrite Hsvg. cbn [negb].
  repeat exec_step.
  all: try (stopped; cause).
  all: rewrite ?exists_insert_ne by path_ne; rewrite exists_insert_eq.
  all: do 2 exec_step; rewrite ?exists_insert_ne by path_ne.
  all: destruct (exists_ (parent file /: "appicon.png.backup") fs0) eqn:Hb.
  all: exec_step; cbn [negb]; repeat exec_step.
  all: try (stopped; cause).
  all: try (lookups; by apply exists_false).
  all: (split; [reflexivity|]); tidy.
  all: do 8 eexists; split_and!; try eassumption.
  all: try (eexists; lookups; reflexivity).
  all: try (lookups; done).
  all: intros q Hq; rewrite !not_elem_of_cons in Hq; destruct_and!.
  all: lookups; reflexivity.
Qed.

(** What [main_run] does not say: the paths a run leaves alone, the files
    it has written, and what a run that returns has found. *)
Lemma main_run_effects (file : Path) fs0 now :
  is_Some (fs0 !! (parent file /: "appicon.svg")) →
  run_effects file fs0 now (main true file (boot fs0 now)).
Proof.
  intros Hsvg.
  apply (wp_outcome _ (run_effects file fs0 now)).
  unfold run_effects, fresh_file, output_paths, regenerated.
  unfold main. cbn [negb]. cbv zeta.
  do 2 exec_step.
  apply exists_true in Hsvg. rewrite Hsvg. cbn [negb].
  repeat exec_step.
  all: try (rewrite ?exists_insert_ne by path_ne; rewrite exists_insert_eq;
            do 2 exec_step; rewrite ?exists_insert_ne by path_ne;
            destruct (exists_ (parent file /: "appicon.png.backup") fs0) eqn:Hb;
            exec_step; cbn [negb]; repeat exec_step).
  all: try (lookups; by apply exists_false).
  all: cbn [world_of returned fs trace]; tidy.
  all: split_and!.
  all: try (intros q Hq; rewrite !not_elem_of_cons in Hq; destruct_and!;
            lookups; reflexivity).
  all: try discriminate.
  all: try (intros p Hp; cbn in Hp; set_unfold in Hp; destruct_or?; subst;
            try done; eexists _, _; (split; [lookups; reflexivity|lia])).
  all: intros _; split_and!; try assumption.
  all: try (intros d t ?; congruence).
  all: repeat (constructor; [first [ assumption
                                    | eexists _, _;
                                      (split; [lookups; reflexivity|lia]) ]|]).
  all: try constructor.
Qed.

End MainRun.

(** ** Every run of the script *)

Section Runs.
Context `{lib : ImagingLib}.
Implicit Types (fs : gmap Path node) (p q : Path).

Lemma script_true file w : script true file w = main true file w.
Proof. reflexivity. Qed.

Lemma main_no_svg file fs0 now :
  fs0 !! (parent file /: "appicon.svg") = None →
  main true file (boot fs0 now) =
  Ret tt (World fs0 (2 + now)
            (call_ok <$> expected_calls true file false false)).
Proof.
  intros Habsent.
  unfold main, mbind, M_bind, bind, Path_exists, prim, boot.
  cbn [negb fs clock trace].
  apply exists_false in Habsent. rewrite Habsent. reflexivity.
Qed.

(** The big-step behaviour of the script: a run that returns has made the
    expected calls, all of which returned; a run that raises has made a
    prefix of them and raised the exception of the last call. *)
Lemma script_run importable file fs0 now :
  let svg := parent file /: "appicon.svg" in
  let backup := parent file /: "appicon.png.backup" in
  let calls :=
    expected_calls importable file (exists_ svg fs0) (exists_ backup fs0) in
  match script importable file (boot fs0 now) with
  | Ret _ w' =>
      trace w' = call_ok <$> calls ∧
      if importable && exists_ svg fs0 then completed file fs0 w'
      else fs w' = fs0
  | Raise e w' =>
      importable = true ∧ exists_ svg fs0 = true ∧
      ∃ n c, calls !! n = Some c ∧ trace w' = stopped_at calls n c e ∧
             fs w' !! backup = fs0 !! backup ∧ raise_cause fs0 c
  end.
Proof.
  intros svg backup calls. subst svg backup calls.
  destruct importable; [|by split].
  rewrite script_true. cbn [expected_calls andb].
  destruct (exists_ (parent file /: "appicon.svg") fs0) eqn:Hsvg.
  - apply exists_true in Hsvg. apply (main_run file fs0 now) in Hsvg.
    destruct (main true file (boot fs0 now)); [done|].
    split_and!; [done..|]. apply Hsvg.
  - apply exists_false in Hsvg. rewrite main_no_svg by done. by split.
Qed.

(** Only a rasterisation, the [mkdir], the opening of the raster or the
    writing of the container can raise: the calls up to index 13. *)
Lemma raise_position file b fs0 n c :
  full_calls file b !! n = Some c → raise_cause fs0 c → (n < 14)%nat.
Proof.
  intros Hn Hc.
  do 14 (destruct n as [|n]; [lia|]). exfalso.
  destruct b; cbn in Hn; unfold calls_summary in Hn.
  all: repeat (destruct n as [|n]; cbn in Hn; [simplify_eq; exact Hc|]).
  all: done.
Qed.


(** A decomposition around the only element with a property. *)
Lemma app_cons_unique {A} (P : A → Prop) (pre post l r : list A) x y :
  pre ++ x :: post = l ++ y :: r →
  P x → Forall (λ z, ¬ P z) l → Forall (λ z, ¬ P z) r →
  pre = l ∧ x = y ∧ post = r.
Proof.
  intros Heq Hx Hl Hr. revert pre Heq.
  induction Hl as [|a l Ha Hl IH]; intros [|z pre] Heq; simplify_eq/=.
  - done.
  - rewrite Forall_forall in Hr. destruct (Hr x); [|done].
    apply elem_of_app. right. by left.
  - done.
  - by destruct (IH pre) as (-> & -> & ->).
Qed.

Lemma no_copy2_elem l ev :
  no_copy2 l → ev ∈ call_ok <$> l → is_copy2 ev → False.
Proof. unfold no_copy2. rewrite Forall_forall. intros H ??. by eapply H. Qed.

Lemma no_copy2_take n l : no_copy2 l → no_copy2 (take n l).
Proof. unfold no_copy2. rewrite fmap_take. apply Forall_take. Qed.

Lemma no_copy2_app l1 l2 : no_copy2 l1 → no_copy2 l2 → no_copy2 (l1 ++ l2).
Proof. unfold no_copy2. rewrite fmap_app. apply Forall_app_2. Qed.

Lemma no_copy2_before file :
  no_copy2 (calls_rasterize file ++ calls_ico file ++ calls_backup file true).
Proof. repeat (constructor; [by intros []|]). constructor. Qed.

Lemma no_copy2_summary file c : no_copy2 (c :: calls_summary file) ↔ ¬ is_copy2 (call_ok c).
Proof.
  unfold no_copy2. rewrite fmap_cons, Forall_cons. split; [by intros []|].
  intros. split; [done|]. repeat (constructor; [by intros []|]). constructor.
Qed.

Lemma full_calls_no_backup file :
  full_calls file false =
  (calls_rasterize file ++ calls_ico file ++ calls_backup file true)
  ++ Copy2 (parent file /: "appicon.png") (parent file /: "appicon.png.backup")
  :: Print ("💾 已备份原图标：" +:+ str (parent file /: "appicon.png.backup"))
  :: calls_summary file.
Proof. reflexivity. Qed.

Lemma full_calls_backup file :
  full_calls file true =
  (calls_rasterize file ++ calls_ico file ++ calls_backup file true)
  ++ calls_summary file.
Proof. reflexivity. Qed.

Lemma raise_cause_not_copy2 fs0 c : raise_cause fs0 c → ¬ is_copy2 (call_ok c).
Proof. destruct c; unfold is_copy2; cbn; tauto. Qed.

(** A raising run stopped among the first 14 calls, which do not depend
    on the backup. *)
Lemma raised_prefix file b fs0 n c :
  full_calls file b !! n = Some c → raise_cause fs0 c →
  take n (full_calls file b)
  = take n (calls_rasterize file ++ calls_ico file ++ calls_backup file true).
Proof.
  intros Hn Hc. pose proof (raise_position _ _ _ _ _ Hn Hc).
  destruct b; rewrite ?full_calls_no_backup, ?full_calls_backup;
    apply take_app_le; cbn; lia.
Qed.

(** A run contains a [Copy2] call only if it is a complete run that
    found no backup. *)
Lemma copy2_in_run importable file fs0 now ev :
  ev ∈ trace (world_of (script importable file (boot fs0 now))) →
  is_copy2 ev →
  exists_ (parent file /: "appicon.png.backup") fs0 = false ∧
  ∃ w', script importable file (boot fs0 now) = Ret tt w' ∧
        trace w' = call_ok <$> full_calls file false ∧
        completed file fs0 w'.
Proof.
  intros Hev Hcopy.
  pose proof (script_run importable file fs0 now) as Hrun. cbv zeta in Hrun.
  destruct (script importable file (boot fs0 now)) as [[] w'|e w'];
    cbn [world_of] in Hev.
  - destruct Hrun as [Htr Hfs]. rewrite Htr in Hev.
    destruct importable; cbn [expected_calls andb] in *.
    2: { exfalso. eapply no_copy2_elem; [|done..].
         repeat (constructor; [by intros []|]). constructor. }
    destruct (exists_ (parent file /: "appicon.svg") fs0).
    2: { exfalso. eapply no_copy2_elem; [|done..].
         repeat (constructor; [by intros []|]). constructor. }
    destruct (exists_ (parent file /: "appicon.png.backup") fs0); [|by eauto].
    exfalso. eapply no_copy2_elem; [|done..].
    rewrite full_calls_backup. apply no_copy2_app; [apply no_copy2_before|].
    repeat (constructor; [by intros []|]). constructor.
  - exfalso. destruct Hrun as (Himp & Hsvg & n & c & Hn & Htr & _ & Hc).
    subst importable. rewrite Hsvg in *. cbn [expected_calls] in *.
    rewrite Htr in Hev. unfold stopped_at in Hev.
    apply elem_of_app in Hev as [Hev|Hev%list_elem_of_singleton].
    + rewrite (raised_prefix _ _ _ _ _ Hn Hc) in Hev.
      eapply no_copy2_elem; [|done..]. apply no_copy2_take, no_copy2_before.
    + subst ev. by apply raise_cause_not_copy2 in Hc.
Qed.

End Runs.

(** ** The claims about whole runs *)

Section Claims.
Context `{lib : ImagingLib}.
Implicit Types (fs : gmap Path node) (p q : Path).

(** A backup that is there is out of reach of any run. *)
Lemma backup_kept importable file fs0 now n :
  let backup := parent file /: "appicon.png.backup" in
  let r := script importable file (boot fs0 now) in
  fs0 !! backup = Some n →
  fs (world_of r) !! backup = Some n ∧
  ∀ ev, ev ∈ trace (world_of r) → ¬ is_copy2 ev.
Proof.
  intros backup r Hn. subst backup r.
  assert (exists_ (parent file /: "appicon.png.backup") fs0 = true) as Hb.
  { apply exists_true. by rewrite Hn. }
  split.
  - pose proof (script_run importable file fs0 now) as Hrun. cbv zeta in Hrun.
    destruct (script importable file (boot fs0 now)) as [[] w'|e w'];
      cbn [world_of].
    + destruct Hrun as [_ Hfs].
      destruct (importable && _); [|by rewrite Hfs].
      destruct Hfs as (?&?&?&?&?&?&?&?&Hfs). destruct_and!.
      by rewrite Hb in *; congruence.
    + destruct Hrun as (_ & _ & ? & ? & _ & _ & -> & _). done.
  - intros ev Hev Hcopy.
    destruct (copy2_in_run _ _ _ _ _ Hev Hcopy) as [? _]. congruence.
Qed.

(** C10. In every run, whatever is logged before a [shutil.copy2] call is
    exactly the calls of the rasterisation and container steps and the
    two existence tests, all of which returned: the 512 pixel PNG, the
    three smaller PNGs and the container have been written. The copy
    then returns and only prints follow it. A run that raises leaves the
    backup path as it found it. *)
Theorem backup_is_last_write importable file fs0 now :
  let r := script importable file (boot fs0 now) in
  let dir := parent file in
  let svg := dir /: "appicon.svg" in
  let png := dir /: "appicon.png" in
  let backup := dir /: "appicon.png.backup" in
  (∀ pre ev post,
     trace (world_of r) = pre ++ ev :: post → is_copy2 ev →
     pre = call_ok <$> (calls_rasterize file ++ calls_ico file
                        ++ calls_backup file true) ∧
     call_ok (Svg2png svg png 512 512) ∈ pre ∧
     call_ok (Svg2png svg (dir /: "icon_256.png") 256 256) ∈ pre ∧
     call_ok (Svg2png svg (dir /: "icon_128.png") 128 128) ∈ pre ∧
     call_ok (Svg2png svg (dir /: "icon_64.png") 64 64) ∈ pre ∧
     call_ok (ImageSaveICO (dir /: "windows" /: "icon.ico")
                [(256, 256); (128, 128); (64, 64); (48, 48); (32, 32); (16, 16)])
       ∈ pre ∧
     ev = call_ok (Copy2 png backup) ∧
     Forall is_print post) ∧
  (∀ e w', r = Raise e w' → fs w' !! backup = fs0 !! backup).
Proof.
  intros r dir svg png backup. subst r dir svg png backup. split.
  - intros pre ev post Htr Hcopy.
    destruct (copy2_in_run importable file fs0 now ev) as (_ & w' & Hr & Hw' & _);
      [rewrite Htr; set_solver|done|].
    rewrite Hr in Htr. cbn [world_of] in Htr. rewrite Hw' in Htr.
    rewrite full_calls_no_backup, fmap_app, fmap_cons in Htr.
    symmetry in Htr.
    apply (app_cons_unique is_copy2) in Htr as (Hpre & Hev & Hpost); [|done|..].
    + subst pre ev post. split_and!; try done.
      * by apply (list_elem_of_lookup_2 _ 2).
      * by apply (list_elem_of_lookup_2 _ 4).
      * by apply (list_elem_of_lookup_2 _ 6).
      * by apply (list_elem_of_lookup_2 _ 8).
      * by apply (list_elem_of_lookup_2 _ 13).
      * repeat constructor.
    + apply no_copy2_before.
    + apply (no_copy2_summary file (Print _)). by intros [].
  - intros e w' Hr.
    pose proof (script_run importable file fs0 now) as Hrun. cbv zeta in Hrun.
    rewrite Hr in Hrun. by destruct Hrun as (_ & _ & ? & ? & _ & _ & -> & _).
Qed.


(** C2, as the script has it. A run that gets past the two checks and
    through all its steps copies the 512 pixel PNG to the backup path if
    and only if there is no backup when it starts, and the copy has the
    contents and the modification time of the PNG. In every run, whatever
    its outcome, a backup that is there keeps its contents and its
    modification time, and no copy is attempted: once a run has made the
    backup, no later run makes it again. *)
Theorem backup_created_once importable file fs0 now :
  let r := script importable file (boot fs0 now) in
  let png := parent file /: "appicon.png" in
  let backup := parent file /: "appicon.png.backup" in
  (∀ w', importable = true →
         is_Some (fs0 !! (parent file /: "appicon.svg")) →
         r = Ret tt w' →
         (call_ok (Copy2 png backup) ∈ trace w' ↔ fs0 !! backup = None) ∧
         (fs0 !! backup = None →
          is_Some (fs w' !! backup) ∧ fs w' !! backup = fs w' !! png)) ∧
  (∀ n, fs0 !! backup = Some n →
        fs (world_of r) !! backup = Some n ∧
        ∀ ev, ev ∈ trace (world_of r) → ¬ is_copy2 ev) ∧
  (∀ importable2 now2,
     call_ok (Copy2 png backup) ∈ trace (world_of r) →
     let r2 := script importable2 file (boot (fs (world_of r)) now2) in
     fs (world_of r2) !! backup = fs (world_of r) !! backup ∧
     ∀ ev, ev ∈ trace (world_of r2) → ¬ is_copy2 ev).
Proof.
  intros r png backup. subst r png backup. split_and!.
  - intros w' -> Hsvg Hr.
    pose proof (script_run true file fs0 now) as Hrun. cbv zeta in Hrun.
    rewrite Hr in Hrun. apply exists_true in Hsvg. rewrite Hsvg in Hrun.
    cbn [expected_calls andb] in Hrun. destruct Hrun as [Htr Hfs].
    destruct Hfs as (?&?&?&?&?&?&?&t512&Hfs). destruct_and!.
    destruct (exists_ (parent file /: "appicon.png.backup") fs0) eqn:Hb.
    + apply exists_true in Hb as [n Hn]. split; [|congruence].
      split; [|congruence]. intros Hev. exfalso.
      eapply (backup_kept true file fs0 now); [done|..].
      * rewrite Hr. exact Hev.
      * done.
    + apply exists_false in Hb. split; [split; [done|]|].
      * intros _. rewrite Htr. by apply (list_elem_of_lookup_2 _ 17).
      * intros _. split; [by eexists|congruence].
  - intros n Hn. by apply backup_kept.
  - intros importable2 now2 Hev.
    destruct (copy2_in_run importable file fs0 now _ Hev) as (Hb & w' & Hr & _ & Hfs);
      [done|].
    rewrite Hr in *. cbn [world_of] in *.
    destruct Hfs as (?&?&?&?&?&?&?&t512&Hfs). destruct_and!.
    rewrite Hb in *.
    edestruct (backup_kept importable2 file (fs w') now2) as [Hkept Hno]; [done|].
    split; [congruence|done].
Qed.

(** C9, as the script has it. Two runs that find the same things present
    (the libraries, the SVG, the backup) and both return make the same
    calls with the same results, so they write the same files. *)
Theorem steps_determined_by_presence importable file fs1 now1 fs2 now2 w1 w2 :
  let svg := parent file /: "appicon.svg" in
  let backup := parent file /: "appicon.png.backup" in
  exists_ svg fs1 = exists_ svg fs2 →
  exists_ backup fs1 = exists_ backup fs2 →
  script importable file (boot fs1 now1) = Ret tt w1 →
  script importable file (boot fs2 now2) = Ret tt w2 →
  trace w1 = call_ok <$> expected_calls importable file
                            (exists_ svg fs1) (exists_ backup fs1) ∧
  trace w1 = trace w2 ∧
  outputs (trace w1) = outputs (trace w2).
Proof.
  intros svg backup Hsvg Hbackup H1 H2. subst svg backup.
  pose proof (script_run importable file fs1 now1) as Hrun1.
  pose proof (script_run importable file fs2 now2) as Hrun2.
  cbv zeta in Hrun1, Hrun2. rewrite H1 in Hrun1. rewrite H2 in Hrun2.
  destruct Hrun1 as [-> _], Hrun2 as [-> _].
  by rewrite Hsvg, Hbackup.
Qed.

(** C8. Nothing is caught. [svg_to_png] raises when the source is missing
    or cannot be parsed, and [create_ico] when the raster is missing or
    cannot be decoded; in both cases no file is written. In every run of
    the script a call that raises is the last one made, and the run ends
    with its exception; a run that raises does so with the exception of
    its last call. In particular an SVG that cannot be parsed ends the
    run at the first rasterisation, with nothing written. *)
Theorem failures_propagate importable file fs0 now :
  (∀ svg_path png_path size w,
     fs w !! svg_path = None →
     svg_to_png svg_path png_path size w =
     Raise (FileNotFoundError svg_path)
       (World (fs w) (S (clock w))
          (trace w ++ [Ev (Svg2png svg_path png_path size size)
                          (Some (FileNotFoundError svg_path))]))) ∧
  (∀ svg_path png_path size w src t,
     fs w !! svg_path = Some (File src t) →
     svg2png_render src size size = None →
     svg_to_png svg_path png_path size w =
     Raise (ParseError svg_path)
       (World (fs w) (S (clock w))
          (trace w ++ [Ev (Svg2png svg_path png_path size size)
                          (Some (ParseError svg_path))]))) ∧
  (∀ png_path ico_path w,
     fs w !! png_path = None →
     create_ico png_path ico_path w =
     Raise (FileNotFoundError png_path)
       (World (fs w) (S (clock w))
          (trace w ++ [Ev (ImageOpen png_path)
                          (Some (FileNotFoundError png_path))]))) ∧
  (∀ png_path ico_path w d t,
     fs w !! png_path = Some (File d t) → Image_decode d = None →
     create_ico png_path ico_path w =
     Raise (UnidentifiedImageError png_path)
       (World (fs w) (S (clock w))
          (trace w ++ [Ev (ImageOpen png_path)
                          (Some (UnidentifiedImageError png_path))]))) ∧
  let r := script importable file (boot fs0 now) in
  let svg := parent file /: "appicon.svg" in
  (∀ pre c e post,
     trace (world_of r) = pre ++ Ev c (Some e) :: post →
     post = [] ∧ ∃ w', r = Raise e w') ∧
  (∀ e w', r = Raise e w' →
     ∃ pre c, trace w' = pre ++ [Ev c (Some e)] ∧ Forall succeeded pre) ∧
  (∀ src t, importable = true →
     fs0 !! svg = Some (File src t) → svg2png_render src 512 512 = None →
     ∃ w', r = Raise (ParseError svg) w' ∧ fs w' = fs0).
Proof.
  cbv zeta. split_and!.
  - intros * Hsrc. unfold svg_to_png, cairosvg_svg2png, mbind, M_bind, bind, prim.
    unfold svg2png_sem, read_file. by rewrite Hsrc.
  - intros * Hsrc Hr. unfold svg_to_png, cairosvg_svg2png, mbind, M_bind, bind, prim.
    unfold svg2png_sem, read_file. by rewrite Hsrc, Hr.
  - intros * Hsrc. unfold create_ico, Image_open, mbind, M_bind, bind, prim.
    unfold open_sem, read_file. by rewrite Hsrc.
  - intros * Hsrc Hd. unfold create_ico, Image_open, mbind, M_bind, bind, prim.
    unfold open_sem, read_file. by rewrite Hsrc, Hd.
  - intros pre c e post Htr.
    pose proof (script_run importable file fs0 now) as Hrun. cbv zeta in Hrun.
    destruct (script importable file (boot fs0 now)) as [[] w'|e' w'];
      cbn [world_of] in Htr.
    + exfalso. destruct Hrun as [Hw' _]. rewrite Hw' in Htr.
      assert (Ev c (Some e) ∈ call_ok <$>
                expected_calls importable file
                  (exists_ (parent file /: "appicon.svg") fs0)
                  (exists_ (parent file /: "appicon.png.backup") fs0)) as Hin
        by (rewrite Htr; set_solver).
      by apply list_elem_of_fmap in Hin as (? & ? & _).
    + destruct Hrun as (_ & _ & n & c' & _ & Hw' & _). rewrite Hw' in Htr.
      unfold stopped_at in Htr. symmetry in Htr.
      apply (app_cons_unique failed) in Htr as (_ & Hev & ->); [|done|..].
      * simplify_eq. eauto.
      * apply Forall_fmap, Forall_forall. intros ? _ Hf. by apply Hf.
      * constructor.
  - intros e w' Hr.
    pose proof (script_run importable file fs0 now) as Hrun. cbv zeta in Hrun.
    rewrite Hr in Hrun. destruct Hrun as (_ & _ & n & c & _ & -> & _).
    eexists _, c. split; [done|]. by apply Forall_fmap, Forall_forall.
  - intros src t -> Hsrc Hr. rewrite script_true.
    unfold main, mbind, M_bind, bind, Path_exists, prim, boot.
    cbn [negb fs clock trace].
    replace (exists_ (parent file /: "appicon.svg") fs0) with true
      by (symmetry; apply exists_true; by rewrite Hsrc).
    cbn [negb]. unfold print, prim. cbn [fs clock trace].
    unfold svg_to_png, cairosvg_svg2png, mbind, M_bind, bind, prim.
    cbn [fs clock trace]. unfold svg2png_sem, read_file. rewrite Hsrc, Hr.
    eauto.
Qed.



(** C6. In a run that went through all its steps, each of [icon_256.png],
    [icon_128.png] and [icon_64.png] holds the rendering of the SVG
    document itself at that size, and the only call of the run that wrote
    it is [svg2png] from the SVG file: the 512 pixel raster is not its
    source. *)
Theorem small_pngs_rasterized_from_svg file fs0 now w' :
  let dir := parent file in
  let svg := dir /: "appicon.svg" in
  is_Some (fs0 !! svg) →
  main true file (boot fs0 now) = Ret tt w' →
  ∃ src t0, fs0 !! svg = Some (File src t0) ∧
    ∀ size, size ∈ [256; 128; 64] →
      let png_file := dir /: ("icon_" +:+ pretty size +:+ ".png") in
      (∃ out t, svg2png_render src size size = Some out ∧
                fs w' !! png_file = Some (File out t)) ∧
      call_ok (Svg2png svg png_file size size) ∈ trace w' ∧
      (∀ ev, ev ∈ trace w' → png_file ∈ output_of ev →
             ev = call_ok (Svg2png svg png_file size size)).
Proof.
  intros dir svg Hsvg Hr. subst dir svg.
  pose proof (main_run file fs0 now Hsvg) as Hrun. cbv zeta in Hrun.
  rewrite Hr in Hrun. destruct Hrun as [Htr Hfs].
  destruct Hfs as (src&t0&png512&png256&png128&png64&img&t512&Hsrc&_&
                   H256&H128&H64&_&_&[t256 Hf256]&[t128 Hf128]&[t64 Hf64]&_).
  exists src, t0. split; [done|].
  intros size Hsize png_file. subst png_file.
  assert (∀ ev name,
            ev ∈ trace w' → (parent file /: name) ∈ output_of ev →
            ∃ c, ev = call_ok c ∧
                 (c = Svg2png (parent file /: "appicon.svg")
                        (parent file /: "appicon.png") 512 512
                  ∨ c = Svg2png (parent file /: "appicon.svg")
                          (parent file /: "icon_256.png") 256 256
                  ∨ c = Svg2png (parent file /: "appicon.svg")
                          (parent file /: "icon_128.png") 128 128
                  ∨ c = Svg2png (parent file /: "appicon.svg")
                          (parent file /: "icon_64.png") 64 64
                  ∨ c = Copy2 (parent file /: "appicon.png")
                          (parent file /: "appicon.png.backup"))) as Hwriters.
  { intros ev name Hev Hout. rewrite Htr in Hev.
    apply list_elem_of_fmap in Hev as (c & -> & Hin). exists c. split; [done|].
    destruct (exists_ (parent file /: "appicon.png.backup") fs0);
      rewrite ?full_calls_backup, ?full_calls_no_backup in Hin;
      set_unfold in Hin; destruct_or!; subst c; cbn in Hout; set_unfold in Hout;
      try done; auto 10.
    all: exfalso; destruct_or?; try done.
    all: symmetry in Hout; by apply joinpath2_ne in Hout. }
  set_unfold in Hsize. destruct_or!; subst size.
  all: rewrite ?icon_name_256, ?icon_name_128, ?icon_name_64.
  all: split_and!; [by eauto| |].
  all: try (rewrite Htr; first [ by apply (list_elem_of_lookup_2 _ 4)
                               | by apply (list_elem_of_lookup_2 _ 6)
                               | by apply (list_elem_of_lookup_2 _ 8) ]).
  all: intros ev Hev Hout;
    destruct (Hwriters ev _ Hev Hout) as (c & -> & Hc);
    destruct_or!; subst c; cbn in Hout; set_unfold in Hout;
    destruct_or?; try done; by apply joinpath_inj in Hout as [_ [=]].
Qed.


(** C5. [svg_to_png] asks for [size] as both the output width and the
    output height: with a source that can be read and rendered and a
    destination that can be written it returns, and the file it leaves is
    a raster of [size] x [size]; whenever it returns, that is what it has
    left. After a run of [main] that went through all its steps the four
    PNG files are rasters of 512, 256, 128 and 64 pixels square, and so
    is the backup when this run made it. *)
Theorem rasters_are_square `{laws : !ImagingLaws lib} :
  (∀ svg_path png_path size w src t png,
     fs w !! svg_path = Some (File src t) →
     svg2png_render src size size = Some png →
     fs w !! parent png_path = Some Dir → fs w !! png_path ≠ Some Dir →
     ∃ w' im, svg_to_png svg_path png_path size w = Ret tt w' ∧
              fs w' !! png_path = Some (File png (clock w)) ∧
              Image_decode png = Some im ∧ Image_size im = (size, size)) ∧
  (∀ svg_path png_path size w w',
     svg_to_png svg_path png_path size w = Ret tt w' →
     ∃ png t im, fs w' !! png_path = Some (File png t) ∧
                 Image_decode png = Some im ∧ Image_size im = (size, size)) ∧
  (∀ file fs0 now w',
     let dir := parent file in
     is_Some (fs0 !! (dir /: "appicon.svg")) →
     main true file (boot fs0 now) = Ret tt w' →
     ∀ p size,
       (p, size) ∈ [(dir /: "appicon.png", 512); (dir /: "icon_256.png", 256);
                    (dir /: "icon_128.png", 128); (dir /: "icon_64.png", 64)]
       ∨ (fs0 !! (dir /: "appicon.png.backup") = None
          ∧ (p, size) = (dir /: "appicon.png.backup", 512)) →
       ∃ png t im, fs w' !! p = Some (File png t) ∧
                   Image_decode png = Some im ∧ Image_size im = (size, size)).
Proof.
  split_and!.
  - intros * Hsrc Hr Hdir Hdst.
    destruct (svg2png_render_size _ _ _ _ Hr) as (im & Him & Hsize).
    eexists _, im. split.
    { unfold svg_to_png, cairosvg_svg2png, print, mbind, M_bind, bind, prim.
      by erewrite svg2png_sem_ok. }
    split_and!; [apply lookup_insert_eq|done..].
  - intros * Hrun.
    unfold svg_to_png, cairosvg_svg2png, print, mbind, M_bind, bind, prim in Hrun.
    destruct (svg2png_sem _ _ _ _ _ _) as [|[[] fs']] eqn:Hsem; simplify_eq/=.
    apply svg2png_sem_inr in Hsem as (src & t & png & _ & Hr & -> & _).
    destruct (svg2png_render_size _ _ _ _ Hr) as (im & Him & Hsize).
    eexists png, _, im. by rewrite lookup_insert_eq.
  - intros file fs0 now w' dir Hsvg Hr p size Hp. subst dir.
    pose proof (main_run file fs0 now Hsvg) as Hrun. cbv zeta in Hrun.
    rewrite Hr in Hrun. destruct Hrun as [_ Hfs].
    destruct Hfs as (src&t0&png512&png256&png128&png64&img&t512&Hsrc&H512&
                     H256&H128&H64&_&Hf512&[t256 Hf256]&[t128 Hf128]&
                     [t64 Hf64]&_&_&Hbackup&_).
    destruct (svg2png_render_size _ _ _ _ H512) as (im512 & ? & ?).
    destruct (svg2png_render_size _ _ _ _ H256) as (im256 & ? & ?).
    destruct (svg2png_render_size _ _ _ _ H128) as (im128 & ? & ?).
    destruct (svg2png_render_size _ _ _ _ H64) as (im64 & ? & ?).
    destruct Hp as [Hp|[Hnone Hp]].
    + set_unfold in Hp. destruct_or!; simplify_eq; eauto 10.
    + simplify_eq. apply exists_false in Hnone. rewrite Hnone in Hbackup.
      eauto 10.
Qed.


End Claims.

(** ** More on whole runs *)

Section MoreRuns.
Context `{lib : ImagingLib}.
Implicit Types (fs : gmap Path node) (p q : Path).

Lemma svg_not_output file : parent file /: "appicon.svg" ∉ output_paths file.
Proof.
  unfold output_paths. cbv zeta. rewrite !not_elem_of_cons.
  split_and!; try path_ne. apply not_elem_of_nil.
Qed.

Lemma dir_not_output file : parent file ∉ output_paths file.
Proof.
  unfold output_paths. cbv zeta. rewrite !not_elem_of_cons.
  split_and!; try path_ne. apply not_elem_of_nil.
Qed.

(** X1. [main] goes through all its steps whenever the SVG can be read and
    rendered at the four sizes, the 512 pixel raster can be decoded, the
    directory of the script is a directory, none of the five files to
    write is a directory and no regular file is named [windows]: it
    returns, having made the expected calls, all of which returned. *)
Theorem main_completes file fs0 now src t0 png512 png256 png128 png64 img :
  let dir := parent file in
  fs0 !! (dir /: "appicon.svg") = Some (File src t0) →
  svg2png_render src 512 512 = Some png512 →
  svg2png_render src 256 256 = Some png256 →
  svg2png_render src 128 128 = Some png128 →
  svg2png_render src 64 64 = Some png64 →
  Image_decode png512 = Some img →
  fs0 !! dir = Some Dir →
  Forall (λ p, fs0 !! p ≠ Some Dir) (regenerated file) →
  (∀ d t, fs0 !! (dir /: "windows") ≠ Some (File d t)) →
  ∃ w', main true file (boot fs0 now) = Ret tt w' ∧
        completed file fs0 w' ∧
        trace w' = call_ok <$> full_calls file
                     (exists_ (dir /: "appicon.png.backup") fs0).
Proof.
  intros dir Hsrc H512 H256 H128 H64 Hdec Hdir Hout Hwin. subst dir.
  assert (is_Some (fs0 !! (parent file /: "appicon.svg"))) as Hsvg by eauto.
  pose proof (main_run file fs0 now Hsvg) as Hrun. cbv zeta in Hrun.
  destruct (main true file (boot fs0 now)) as [[] w'|e w'].
  { exists w'. by destruct Hrun. }
  exfalso. destruct Hrun as (n & c & Hn & _ & _ & Hc).
  apply list_elem_of_lookup_2 in Hn.
  unfold regenerated in Hout. cbv zeta in Hout.
  rewrite !Forall_cons in Hout. destruct_and!.
  destruct (exists_ (parent file /: "appicon.png.backup") fs0);
    rewrite ?full_calls_backup, ?full_calls_no_backup in Hn;
    set_unfold in Hn; destruct_or!; subst c; cbn [raise_cause] in Hc;
    try done.
  all: rewrite ?icon_name_256, ?icon_name_128, ?icon_name_64,
         ?parent_joinpath in Hc.
  all: try (destruct (Hc _ _ Hsrc) as [?|[?|?]]; congruence).
  all: try (destruct Hc as (? & ? & ?); by eapply Hwin).
  all: try (specialize (Hc _ _ _ Hsrc H512); congruence).
Qed.


(** X2. Conversely, a run of [main] that found the SVG and returned has
    found all of that: the directory of the script, no directory in the
    place of a file to write, no regular file named [windows], an SVG that
    renders at the four sizes and a 512 pixel raster that decodes. *)
Theorem main_returns_only_if file fs0 now w' :
  let dir := parent file in
  is_Some (fs0 !! (dir /: "appicon.svg")) →
  main true file (boot fs0 now) = Ret tt w' →
  fs0 !! dir = Some Dir ∧
  Forall (λ p, fs0 !! p ≠ Some Dir) (regenerated file) ∧
  (∀ d t, fs0 !! (dir /: "windows") ≠ Some (File d t)) ∧
  ∃ src t0 png512 img,
    fs0 !! (dir /: "appicon.svg") = Some (File src t0) ∧
    Forall (λ s, is_Some (svg2png_render src s s)) [512; 256; 128; 64] ∧
    svg2png_render src 512 512 = Some png512 ∧
    Image_decode png512 = Some img.
Proof.
  intros dir Hsvg Hr. subst dir.
  pose proof (main_run_effects file fs0 now Hsvg) as (_ & _ & Hfound).
  pose proof (main_run file fs0 now Hsvg) as Hrun. cbv zeta in Hrun.
  rewrite Hr in Hfound, Hrun. destruct (Hfound eq_refl) as (Hdir & Hout & Hwin & _).
  destruct Hrun as [_ Hfs].
  destruct Hfs as (src&t0&png512&png256&png128&png64&img&t512&Hsrc&H512&
                   H256&H128&H64&Hdec&_).
  split_and!; [done..|]. exists src, t0, png512, img.
  split_and!; [done| |done..]. repeat (constructor; [by eexists|]). constructor.
Qed.

(** X3. Two complete runs on the same SVG document leave the same
    contents in the five files a run writes anew, whatever these paths held
    before and whenever the runs take place: the four PNGs and the
    container are overwritten, not updated. *)
Theorem outputs_depend_only_on_svg file fs1 now1 w1 fs2 now2 w2 src t1 t2 :
  let svg := parent file /: "appicon.svg" in
  fs1 !! svg = Some (File src t1) → fs2 !! svg = Some (File src t2) →
  main true file (boot fs1 now1) = Ret tt w1 →
  main true file (boot fs2 now2) = Ret tt w2 →
  Forall (λ p, is_Some (fs w1 !! p) ∧
               node_data <$> fs w1 !! p = node_data <$> fs w2 !! p)
         (regenerated file).
Proof.
  intros svg Hsrc1 Hsrc2 Hr1 Hr2. subst svg.
  assert (is_Some (fs1 !! (parent file /: "appicon.svg"))) as Hsvg1 by eauto.
  assert (is_Some (fs2 !! (parent file /: "appicon.svg"))) as Hsvg2 by eauto.
  pose proof (main_run file fs1 now1 Hsvg1) as Hrun1.
  pose proof (main_run file fs2 now2 Hsvg2) as Hrun2.
  cbv zeta in Hrun1, Hrun2. rewrite Hr1 in Hrun1. rewrite Hr2 in Hrun2.
  destruct Hrun1 as [_ (?&?&?&?&?&?&?&?&?&?&?&?&?&?&Ha1&[? Hb1]&[? Hc1]&[? Hd1]&_&[? He1]&_)].
  destruct Hrun2 as [_ (?&?&?&?&?&?&?&?&?&?&?&?&?&?&Ha2&[? Hb2]&[? Hc2]&[? Hd2]&_&[? He2]&_)].
  simplify_eq. unfold regenerated. cbv zeta.
  rewrite !Forall_cons, Forall_nil.
  rewrite Ha1, Ha2, Hb1, Hb2, Hc1, Hc2, Hd1, Hd2, He1, He2.
  split_and!; by eauto.
Qed.


(** X4. After a complete run, a second run at any time goes through all
    its steps too. It leaves every path with the contents the first run
    left; every path other than the five regenerated files, the backup
    among them, is as the first run left it, modification time included;
    and it makes no copy. *)
Theorem rerun_changes_nothing file fs0 now w1 now2 :
  is_Some (fs0 !! (parent file /: "appicon.svg")) →
  main true file (boot fs0 now) = Ret tt w1 →
  ∃ w2, main true file (boot (fs w1) now2) = Ret tt w2 ∧
        (∀ q, node_data <$> fs w2 !! q = node_data <$> fs w1 !! q) ∧
        (∀ q, q ∉ regenerated file → fs w2 !! q = fs w1 !! q) ∧
        (∀ ev, ev ∈ trace w2 → ¬ is_copy2 ev).
Proof.
  intros Hsvg Hr.
  pose proof (main_run_effects file fs0 now Hsvg) as (_ & _ & Hfound).
  pose proof (main_run file fs0 now Hsvg) as Hrun. cbv zeta in Hrun.
  rewrite Hr in Hfound, Hrun. destruct (Hfound eq_refl) as (Hdir & _ & _ & Hnew).
  destruct Hrun as [_ Hfs].
  destruct Hfs as (src&t0&png512&png256&png128&png64&img&t512&Hsrc&H512&
                   H256&H128&H64&Hdec&Hf512&[t256 Hf256]&[t128 Hf128]&
                   [t64 Hf64]&Hwin&[tico Hfico]&Hbackup&Hframe).
  assert (∃ n, fs w1 !! (parent file /: "appicon.png.backup") = Some n) as [n Hn].
  { rewrite Hbackup. destruct (exists_ _ fs0) eqn:Hb; [|by eauto].
    by apply exists_true in Hb as [n ->]; eauto. }
  destruct (main_completes file (fs w1) now2 src t0 png512 png256 png128 png64 img)
    as (w2 & Hr2 & Hfs2 & Htr2).
  { rewrite Hframe; [done|apply svg_not_output]. }
  1-5: done.
  { rewrite Hframe; [done|apply dir_not_output]. }
  { unfold regenerated. cbv zeta.
    repeat (constructor; [congruence|]). constructor. }
  { intros d t. congruence. }
  exists w2. split; [done|].
  destruct Hfs2 as (src'&t0'&p512&p256&p128&p64&img'&t512'&Hsrc'&H512'&
                    H256'&H128'&H64'&Hdec'&Hg512&[t256' Hg256]&[t128' Hg128]&
                    [t64' Hg64]&Hwin'&[tico' Hgico]&Hbackup'&Hframe').
  rewrite Hframe in Hsrc' by apply svg_not_output. simplify_eq.
  assert (exists_ (parent file /: "appicon.png.backup") (fs w1) = true) as Hb1.
  { apply exists_true. by rewrite Hn. }
  rewrite Hb1 in Hbackup'.
  assert (∀ q, q ∉ regenerated file → fs w2 !! q = fs w1 !! q) as Hsame.
  { intros q Hq. unfold regenerated in Hq. cbv zeta in Hq.
    rewrite !not_elem_of_cons in Hq. destruct_and!.
    destruct (decide (q = parent file /: "windows")) as [->|]; [congruence|].
    destruct (decide (q = parent file /: "appicon.png.backup")) as [->|];
      [congruence|].
    apply Hframe'. rewrite !not_elem_of_cons.
    split_and!; try done; apply not_elem_of_nil. }
  split_and!; [|done|].
  - intros q.
    destruct (decide (q ∈ regenerated file)) as [Hq|Hq]; [|by rewrite Hsame].
    unfold regenerated in Hq. cbv zeta in Hq. set_unfold in Hq.
    destruct_or!; subst q;
      rewrite ?Hf512, ?Hg512, ?Hf256, ?Hg256, ?Hf128, ?Hg128, ?Hf64, ?Hg64,
        ?Hfico, ?Hgico; done.
  - intros ev Hev Hcopy. rewrite Htr2, Hb1 in Hev.
    eapply no_copy2_elem; [|done..].
    rewrite full_calls_backup. apply no_copy2_app; [apply no_copy2_before|].
    repeat (constructor; [by intros []|]). constructor.
Qed.


(** X6. Every file a run has written (the destination of a rasterisation,
    of the save or of the copy that returned) is one of its [output_paths]
    and is a file stamped during this run when the run ends: a run that
    raises removes nothing of what it wrote before. *)
Theorem written_files_stay importable file fs0 now :
  let r := script importable file (boot fs0 now) in
  ∀ p, p ∈ outputs (trace (world_of r)) →
       p ∈ output_paths file ∧ fresh_file (fs (world_of r)) now p.
Proof.
  intros r p Hp. subst r.
  destruct importable; [|by set_unfold in Hp]. rewrite script_true in *.
  destruct (fs0 !! (parent file /: "appicon.svg")) eqn:Hsvg.
  2: { rewrite main_no_svg in Hp by done. by set_unfold in Hp. }
  assert (is_Some (fs0 !! (parent file /: "appicon.svg"))) as Hsome
    by (rewrite Hsvg; eauto).
  pose proof (main_run_effects file fs0 now Hsome) as (Hframe & Hkept & _).
  split; [|by apply Hkept].
  destruct (decide (p ∈ output_paths file)) as [|Hout]; [done|exfalso].
  destruct (Hkept p Hp) as (d & t & Hfile & Hlt).
  rewrite Hframe in Hfile by done.
  pose proof (main_run file fs0 now Hsome) as Hrun. cbv zeta in Hrun.
  destruct (main true file (boot fs0 now)) as [[] w'|e w']; cbn [world_of] in *.
  - destruct Hrun as [Htr _]. rewrite Htr in Hp. apply Hout.
    destruct (exists_ _ fs0);
      rewrite ?full_calls_backup, ?full_calls_no_backup in Hp;
      cbn in Hp; set_unfold in Hp; destruct_or?; subst; try done;
      unfold output_paths; set_solver.
  - destruct Hrun as (k & c & Hk & Htr & _ & Hc). rewrite Htr in Hp.
    unfold stopped_at in Hp. rewrite (raised_prefix _ _ _ _ _ Hk Hc) in Hp.
    unfold outputs in Hp. rewrite bind_app in Hp.
    apply elem_of_app in Hp as [Hp|Hp];
      [|by destruct c; cbn in Hp; set_unfold in Hp].
    apply Hout. apply list_elem_of_bind in Hp as (ev & Hpev & Hev).
    apply list_elem_of_fmap in Hev as (c' & -> & Hc').
    apply elem_of_take in Hc' as (i & Hc' & _).
    apply list_elem_of_lookup_2 in Hc'.
    cbn in Hc'. set_unfold in Hc'. destruct_or?; subst; cbn in Hpev;
      set_unfold in Hpev; destruct_or?; subst; try done;
      unfold output_paths; set_solver.
Qed.



Lemma full_calls_length file b : (25 ≤ length (full_calls file b))%nat.
Proof. destruct b; vm_compute; lia. Qed.

(** X10. The calls of a run, in order, are an initial segment of the
    calls expected from what the run finds present: all of them when it
    returns; when it raises, a strict and non-empty one whose calls all
    returned but the last. *)
Theorem calls_are_a_prefix importable file fs0 now :
  let r := script importable file (boot fs0 now) in
  let calls := expected_calls importable file
                 (exists_ (parent file /: "appicon.svg") fs0)
                 (exists_ (parent file /: "appicon.png.backup") fs0) in
  ∃ k, ev_call <$> trace (world_of r) = take k calls ∧
       (returned r = true → ev_call <$> trace (world_of r) = calls) ∧
       (returned r = false → (0 < k < length calls)%nat ∧
                             Forall succeeded (take (k - 1) (trace (world_of r)))).
Proof.
  intros r calls. subst r calls.
  pose proof (script_run importable file fs0 now) as Hrun. cbv zeta in Hrun.
  destruct (script importable file (boot fs0 now)) as [[] w'|e w'];
    cbn [world_of returned].
  - destruct Hrun as [-> _]. rewrite <- list_fmap_compose.
    replace (ev_call ∘ call_ok) with (@id call) by done. rewrite list_fmap_id.
    set (calls := expected_calls _ _ _ _).
    exists (length calls). rewrite firstn_all. by split_and!.
  - destruct Hrun as (-> & Hsvg & n & c & Hn & -> & _ & Hc).
    exists (S n). unfold stopped_at. rewrite fmap_app, <- list_fmap_compose.
    replace (ev_call ∘ call_ok) with (@id call) by done. rewrite list_fmap_id.
    rewrite Hsvg in *. cbn [expected_calls] in *.
    pose proof (raise_position _ _ _ _ _ Hn Hc) as Hpos.
    pose proof (full_calls_length file
                  (exists_ (parent file /: "appicon.png.backup") fs0)) as Hlen.
    pose proof (lookup_lt_Some _ _ _ Hn) as Hlt.
    split_and!; [|done|].
    + by erewrite take_S_r.
    + intros _. split; [lia|].
      replace (S n - 1)%nat with n by lia.
      rewrite take_app_length'.
      * apply Forall_fmap, Forall_forall. by intros.
      * rewrite length_fmap, length_take. lia.
Qed.

End MoreRuns.

(** ** More on the two helpers *)

Section Helpers.
Context `{lib : ImagingLib}.
Implicit Types (fs : gmap Path node) (p q : Path).

Lemma write_file_other p d t fs fs' q :
  write_file p d t fs = inr fs' → q ≠ p → fs' !! q = fs !! q.
Proof. intros (-> & _)%write_file_inr ?. by rewrite lookup_insert_ne. Qed.

(** X9. Whatever their outcome, [svg_to_png] and [create_ico] change no
    path other than their destination: the source is only read. *)
Theorem helpers_write_only_destination :
  (∀ svg_path png_path size w q,
     q ≠ png_path →
     fs (world_of (svg_to_png svg_path png_path size w)) !! q = fs w !! q) ∧
  (∀ png_path ico_path w q,
     q ≠ ico_path →
     fs (world_of (create_ico png_path ico_path w)) !! q = fs w !! q).
Proof.
  split.
  - intros * Hq.
    unfold svg_to_png, cairosvg_svg2png, print, mbind, M_bind, bind, prim.
    destruct (svg2png_sem _ _ _ _ _ _) as [|[[] fs']] eqn:Hsem; [done|].
    apply svg2png_sem_inr in Hsem as (?&?&?&_&_&->&_).
    cbn. by rewrite lookup_insert_ne.
  - intros * Hq.
    unfold create_ico, Image_open, Image_save_ico, print, mbind, M_bind, bind, prim.
    destruct (open_sem _ _) as [|[img fs']] eqn:Hopen; [done|].
    apply open_sem_inr in Hopen as (-> & _).
    cbn [fold_left app fs clock trace].
    destruct (save_ico_sem _ _ _ _ _ _) as [|[[] fs']] eqn:Hsave; [done|].
    apply save_ico_sem_inr in Hsave as (-> & _).
    cbn. by rewrite lookup_insert_ne.
Qed.

(** X8. [create_ico] does not create the directory of its destination:
    when there is none it opens the raster, raises [FileNotFoundError] at
    the save and writes nothing. After a [mkdir(exist_ok=True)] of that
    directory that returned, it returns and leaves the container, unless
    the destination itself is a directory. *)
Theorem create_ico_after_mkdir :
  (∀ png_path ico_path w d t img,
     fs w !! png_path = Some (File d t) → Image_decode d = Some img →
     fs w !! ico_path ≠ Some Dir → fs w !! parent ico_path = None →
     ∃ w', create_ico png_path ico_path w = Raise (FileNotFoundError ico_path) w' ∧
           fs w' = fs w ∧
           ev_call <$> trace w' =
           (ev_call <$> trace w) ++
           [ImageOpen png_path;
            ImageSaveICO ico_path
              [(256, 256); (128, 128); (64, 64); (48, 48); (32, 32); (16, 16)]]) ∧
  (∀ png_path ico_dir name w w1 d t img,
     Path_mkdir ico_dir true w = Ret tt w1 →
     fs w1 !! png_path = Some (File d t) → Image_decode d = Some img →
     fs w1 !! (ico_dir /: name) ≠ Some Dir →
     ∃ w2, create_ico png_path (ico_dir /: name) w1 = Ret tt w2 ∧
           ∃ ico t', fs w2 !! (ico_dir /: name) = Some (File ico t')).
Proof.
  split.
  - intros * Hpng Hdec Hdst Hdir.
    unfold create_ico, Image_open, Image_save_ico, print, mbind, M_bind, bind, prim.
    unfold open_sem, read_file. rewrite Hpng, Hdec.
    cbn [fold_left app fs clock trace]. unfold save_ico_sem, write_file.
    rewrite Hdir. destruct (fs w !! ico_path) as [[]|] eqn:Hico; try done.
    all: eexists; split_and!; [reflexivity|done|].
    all: cbn [trace]; by rewrite !fmap_app, <- app_assoc.
  - intros * Hmk Hpng Hdec Hdst.
    assert (fs w1 !! ico_dir = Some Dir) as Hdir.
    { unfold Path_mkdir, prim in Hmk.
      destruct (mkdir_sem ico_dir true (fs w)) as [|fs'] eqn:Hsem; simplify_eq/=.
      apply mkdir_sem_inr in Hsem as [(_&_&->)|(?&->)]; [|done].
      apply lookup_insert_eq. }
    unfold create_ico, Image_open, Image_save_ico, print, mbind, M_bind, bind, prim.
    unfold open_sem, read_file. rewrite Hpng, Hdec.
    cbn [fold_left app fs clock trace]. unfold save_ico_sem.
    rewrite write_file_ok by (by rewrite ?parent_joinpath).
    eexists. split; [reflexivity|]. cbn [fs]. eexists _, _. apply lookup_insert_eq.
Qed.

End Helpers.

(** ** The theorems at work on the symbolic libraries *)

Module Examples.
Import Symbolic.

Global Instance laws : ImagingLaws lib.
Proof.
  split.
  - intros [] w h png [= <-]. by eexists.
  - done.
Qed.

Lemma returned_eq (r : outcome unit) :
  returned r = true → r = Ret tt (world_of r).
Proof. by destruct r as [[]|]. Qed.


Lemma missing_source_stops_witness :
  let fs0 : gmap Path node := <[build := Dir]> ∅ in
  main true file (boot fs0 0) =
  Ret tt (World fs0 2
            [Ev (PathExists (build /: "appicon.svg")) None;
             Ev (Print "❌ 错误：找不到 build/appicon.svg") None]).
Proof.
  intros fs0. apply (missing_source_stops file fs0 0). reflexivity.
Defined.

Lemma rasters_are_square_witness :
  ∃ w' im,
    svg_to_png (build /: "appicon.svg") (build /: "icon_64.png") 64 (boot fresh 0)
      = Ret tt w' ∧
    fs w' !! (build /: "icon_64.png")
      = Some (File (Png (Rendered "appicon" 64 64)) 0%nat) ∧
    Image_decode (Png (Rendered "appicon" 64 64)) = Some im ∧
    Image_size im = (64, 64).
Proof.
  destruct (rasters_are_square (lib := lib)) as [Hop _].
  apply (Hop _ _ 64 (boot fresh 0) (SvgDoc "appicon") 3%nat);
    [reflexivity..|done].
Defined.


Lemma small_pngs_rasterized_from_svg_witness :
  let w' := world_of (main true file (boot fresh 0)) in
  ∃ src t0, fresh !! (build /: "appicon.svg") = Some (File src t0) ∧
    ∀ size, size ∈ [256; 128; 64] →
      let png_file := build /: ("icon_" +:+ pretty size +:+ ".png") in
      (∃ out t, render src size size = Some out ∧
                fs w' !! png_file = Some (File out t)) ∧
      call_ok (Svg2png (build /: "appicon.svg") png_file size size) ∈ trace w' ∧
      (∀ ev, ev ∈ trace w' → png_file ∈ output_of ev →
             ev = call_ok (Svg2png (build /: "appicon.svg") png_file size size)).
Proof.
  intros w'. apply (small_pngs_rasterized_from_svg file fresh 0 w').
  - vm_compute. eauto.
  - apply returned_eq. vm_compute. reflexivity.
Defined.

Lemma steps_determined_by_presence_witness :
  let w1 := world_of (script true file (boot fresh 0)) in
  let w2 := world_of (script true file (boot redrawn 50)) in
  trace w1 = call_ok <$> expected_calls true file true false ∧
  trace w1 = trace w2 ∧
  outputs (trace w1) = outputs (trace w2).
Proof.
  intros w1 w2.
  apply (steps_determined_by_presence true file fresh 0%nat redrawn 50%nat w1 w2).
  - vm_compute. reflexivity.
  - vm_compute. reflexivity.
  - apply returned_eq. vm_compute. reflexivity.
  - apply returned_eq. vm_compute. reflexivity.
Defined.

(** C9 as stated fails: two runs find the libraries, the SVG file and no
    backup, yet one goes through all its steps and the other stops at
    the first rasterisation, having written nothing. *)
Lemma same_presence_different_steps :
  let r1 := script true file (boot fresh 0) in
  let r2 := script true file (boot corrupt 0) in
  exists_ (build /: "appicon.svg") fresh = exists_ (build /: "appicon.svg") corrupt ∧
  exists_ (build /: "appicon.png.backup") fresh
    = exists_ (build /: "appicon.png.backup") corrupt ∧
  (ev_call <$> trace (world_of r1)) ≠ (ev_call <$> trace (world_of r2)) ∧
  outputs (trace (world_of r1)) ≠ outputs (trace (world_of r2)).
Proof.
  intros r1 r2. split_and!.
  - vm_compute. reflexivity.
  - vm_compute. reflexivity.
  - intros H%(f_equal length). vm_compute in H. discriminate.
  - intros H%(f_equal length). vm_compute in H. discriminate.
Qed.

(** C2 as stated fails: the backup does not exist when the run starts,
    the 512 pixel PNG does, and the run returns without creating it. *)
Lemma backup_not_created_without_source :
  let r := script true file (boot no_source 0) in
  no_source !! (build /: "appicon.png.backup") = None ∧
  is_Some (no_source !! (build /: "appicon.png")) ∧
  returned r = true ∧
  fs (world_of r) !! (build /: "appicon.png.backup") = None ∧
  ¬ (call_ok (Copy2 (build /: "appicon.png") (build /: "appicon.png.backup"))
       ∈ trace (world_of r)
     ↔ no_source !! (build /: "appicon.png.backup") = None).
Proof.
  intros r. split_and!.
  - reflexivity.
  - vm_compute. eauto.
  - vm_compute. reflexivity.
  - vm_compute. reflexivity.
  - intros [_ H]. specialize (H eq_refl). vm_compute in H.
    set_unfold in H. destruct_or!; discriminate.
Qed.

Lemma backup_is_last_write_witness :
  let tr := trace (world_of (script true file (boot fresh 0))) in
  take 17 tr = call_ok <$> (calls_rasterize file ++ calls_ico file
                            ++ calls_backup file true) ∧
  tr !! 17%nat = Some (call_ok (Copy2 (build /: "appicon.png")
                                  (build /: "appicon.png.backup"))) ∧
  Forall is_print (drop 18 tr).
Proof.
  intros tr.
  destruct (backup_is_last_write true file fresh 0) as [Hcopy _].
  destruct (Hcopy (take 17 tr)
              (call_ok (Copy2 (build /: "appicon.png")
                          (build /: "appicon.png.backup")))
              (drop 18 tr))
    as (Hpre & _ & _ & _ & _ & _ & _ & Hpost).
  - vm_compute. reflexivity.
  - exact I.
  - split_and!; [exact Hpre | vm_compute; reflexivity | exact Hpost].
Defined.

Lemma backup_created_once_witness :
  let backup := build /: "appicon.png.backup" in
  let r1 := script true file (boot fresh 0) in
  let r2 := script true file (boot (fs (world_of r1)) 100) in
  call_ok (Copy2 (build /: "appicon.png") backup) ∈ trace (world_of r1) ∧
  fs (world_of r2) !! backup = fs (world_of r1) !! backup ∧
  ∀ ev, ev ∈ trace (world_of r2) → ¬ is_copy2 ev.
Proof.
  intros backup r1 r2.
  destruct (backup_created_once true file fresh 0) as (Hfirst & _ & Hnext).
  destruct (Hfirst (world_of r1)) as [Hiff _].
  - reflexivity.
  - vm_compute. eauto.
  - apply returned_eq. vm_compute. reflexivity.
  - assert (call_ok (Copy2 (build /: "appicon.png") backup) ∈ trace (world_of r1))
      as Hin by (apply Hiff; reflexivity).
    split; [exact Hin|]. exact (Hnext true 100%nat Hin).
Defined.


Lemma failures_propagate_witness :
  ∃ w', script true file (boot corrupt 0)
          = Raise (ParseError (build /: "appicon.svg")) w' ∧
        fs w' = corrupt.
Proof.
  destruct (failures_propagate true file corrupt 0) as (_ & _ & _ & _ & _ & _ & Hsvg).
  apply (Hsvg Malformed 3%nat); reflexivity.
Defined.


Lemma main_completes_witness :
  ∃ w', main true file (boot fresh 0) = Ret tt w' ∧
        completed file fresh w' ∧
        trace w' = call_ok <$> full_calls file
                     (exists_ (parent file /: "appicon.png.backup") fresh).
Proof.
  apply (main_completes file fresh 0 (SvgDoc "appicon") 3%nat
           (Png (Rendered "appicon" 512 512)) (Png (Rendered "appicon" 256 256))
           (Png (Rendered "appicon" 128 128)) (Png (Rendered "appicon" 64 64))
           (Rendered "appicon" 512 512)); try reflexivity.
  - repeat (constructor; [vm_compute; discriminate|]). constructor.
  - intros d t. vm_compute. discriminate.
Defined.

Lemma main_returns_only_if_witness :
  fresh !! build = Some Dir ∧
  Forall (λ p, fresh !! p ≠ Some Dir) (regenerated file) ∧
  (∀ d t, fresh !! (build /: "windows") ≠ Some (File d t)).
Proof.
  destruct (main_returns_only_if file fresh 0
              (world_of (main true file (boot fresh 0))))
    as (Hdir & Hout & Hwin & _).
  - vm_compute. eauto.
  - apply returned_eq. vm_compute. reflexivity.
  - split_and!; [exact Hdir | exact Hout | exact Hwin].
Defined.

Lemma outputs_depend_only_on_svg_witness :
  let w1 := world_of (main true file (boot fresh 0)) in
  let w2 := world_of (main true file (boot stale 9)) in
  Forall (λ p, is_Some (fs w1 !! p) ∧
               node_data <$> fs w1 !! p = node_data <$> fs w2 !! p)
         (regenerated file).
Proof.
  intros w1 w2.
  apply (outputs_depend_only_on_svg file fresh 0 w1 stale 9 w2
           (SvgDoc "appicon") 3%nat 3%nat).
  - vm_compute. reflexivity.
  - vm_compute. reflexivity.
  - apply returned_eq. vm_compute. reflexivity.
  - apply returned_eq. vm_compute. reflexivity.
Defined.

Lemma rerun_changes_nothing_witness :
  let w1 := world_of (main true file (boot fresh 0)) in
  ∃ w2, main true file (boot (fs w1) 100) = Ret tt w2 ∧
        (∀ q, node_data <$> fs w2 !! q = node_data <$> fs w1 !! q) ∧
        (∀ q, q ∉ regenerated file → fs w2 !! q = fs w1 !! q) ∧
        (∀ ev, ev ∈ trace w2 → ¬ is_copy2 ev).
Proof.
  intros w1. apply (rerun_changes_nothing file fresh 0 w1 100).
  - vm_compute. eauto.
  - apply returned_eq. vm_compute. reflexivity.
Defined.


Lemma written_files_stay_witness :
  let r := script true file (boot fresh 0) in
  build /: "icon_64.png" ∈ output_paths file ∧
  fresh_file (fs (world_of r)) 0 (build /: "icon_64.png").
Proof.
  intros r. apply (written_files_stay true file fresh 0).
  apply (list_elem_of_lookup_2 _ 3). vm_compute. reflexivity.
Defined.

Lemma create_ico_after_mkdir_witness :
  let png := build /: "appicon.png" in
  let ico := build /: "windows" /: "icon.ico" in
  let w := boot (<[png := File (Png (Rendered "appicon" 512 512)) 1%nat]> bare) 0 in
  ∃ w', create_ico png ico w = Raise (FileNotFoundError ico) w' ∧
        fs w' = fs w ∧
        ev_call <$> trace w' =
        (ev_call <$> trace w) ++
        [ImageOpen png;
         ImageSaveICO ico
           [(256, 256); (128, 128); (64, 64); (48, 48); (32, 32); (16, 16)]].
Proof.
  intros png ico w.
  destruct (create_ico_after_mkdir (lib := lib)) as [Hmissing _].
  apply (Hmissing png ico w (Png (Rendered "appicon" 512 512)) 1%nat
           (Rendered "appicon" 512 512)).
  - vm_compute. reflexivity.
  - reflexivity.
  - vm_compute. discriminate.
  - vm_compute. reflexivity.
Defined.

End Examples.
